(** * IGP2: road-network queries and macro-action agents

    A shallow embedding of [igp2/opendrive/map.py], [igp2/agents/macro_agent.py]
    and [igp2/agents/traffic_agent.py], and the properties of these modules.

    Conventions of the embedding.
    - A finite Python float is a rational ([Q]); [np.inf] is the extra
      element of [efloat].  Comparisons of floats are exact.  The sums,
      differences and norms by which [best_lane_at] and
      [update_macro_action] select are the rounded ones of the interface
      [FloatOps]; elsewhere arithmetic is idealised as exact.
    - Objects that reference each other (roads, junctions) are held in the
      [Map] and referenced by id; a reference to an id the map does not hold
      plays the role of Python's [None].
    - Raised exceptions are values of [exn]; a call that can raise returns a
      [result].
    - The geometry library (shapely boundaries, plan views) and the planning
      classes (goals, macro actions, the A* planner) are interfaces; a call
      into an interface returns, and raises only where its type says so. *)

From Stdlib Require Import ZArith QArith Qabs Qround Lia List Bool String.
From stdpp Require Import base option gmap strings.
Import ListNotations.

Local Open Scope Z_scope.

(** ** Numbers *)

Definition Qltb (x y : Q) : bool := Qnum x * QDen y <? Qnum y * QDen x.

(** A float that may be [np.inf]. *)
Inductive efloat : Type :=
| Fin (q : Q)
| Inf.

(** [x < e] for a finite [x]. *)
Definition lt_efloat (x : Q) (e : efloat) : bool :=
  match e with
  | Fin q => Qltb x q
  | Inf => true
  end.

(** Python's [x % m] on floats (the result has the sign of [m]). *)
Definition pymod (x m : Q) : Q := (x - m * inject_Z (Qfloor (x / m)))%Q.

Definition Point : Type := (Q * Q)%type.

(** [a < b] on floats that may be [np.inf]. *)
Definition efloat_ltb (a b : efloat) : bool :=
  match a, b with
  | Fin x, Fin y => Qltb x y
  | Fin _, Inf => true
  | Inf, _ => false
  end.

(** ** Floating-point arithmetic

    The sum and the difference of two floats, rounded as the machine
    rounds them, and [np.linalg.norm(p - c)] of two points, which is
    rounded as well and is [np.inf] when it overflows. *)
Class FloatOps : Type := {
  float_add : Q -> Q -> Q;
  float_sub : Q -> Q -> Q;
  float_norm_diff : Point -> Point -> efloat
}.

(** ** Exceptions *)

Inductive exn : Type :=
| ValueError
| RuntimeError
| AssertionError
| AttributeError
| IndexError
| KeyError.

Inductive result (A : Type) : Type :=
| Ok (a : A)
| Raise (e : exn).
Arguments Ok {A} a.
Arguments Raise {A} e.

(** ** The geometry interface

    [shapely] geometries with [distance] and [is_empty], a road's plan view
    with [calc], a line's [project], and [normalise_angle] of
    [igp2.opendrive.elements.geometry]. *)
Class GeometryOps : Type := {
  Geometry : Type;
  PlanView : Type;
  distance : Geometry -> Point -> Q;
  is_empty : Geometry -> bool;
  project : Geometry -> Point -> Q;
  calc : PlanView -> Q -> Point * Q;
  np_pi : Q;
  normalise_angle : Q -> Q
}.

(** ** Road network entities *)

Inductive LaneTypes : Type :=
| DRIVING
| SIDEWALK
| BORDER
| NONE_TYPE.

Definition LaneTypes_eqb (a b : LaneTypes) : bool :=
  match a, b with
  | DRIVING, DRIVING | SIDEWALK, SIDEWALK | BORDER, BORDER
  | NONE_TYPE, NONE_TYPE => true
  | _, _ => false
  end.

Record JunctionGroup : Type := {
  jg_id : Z;
  jg_type : string
}.

Definition JunctionGroup_eqb (a b : JunctionGroup) : bool :=
  (jg_id a =? jg_id b) && String.eqb (jg_type a) (jg_type b).

(** [a == b] on two optional junction groups ([None == None] holds). *)
Definition opt_group_eqb (a b : option JunctionGroup) : bool :=
  match a, b with
  | Some x, Some y => JunctionGroup_eqb x y
  | None, None => true
  | _, _ => false
  end.

(** What a road link points at: [link.predecessor.element] is a road or a
    junction, referenced by id. *)
Inductive ElementRef : Type :=
| RoadRef (road_id : Z)
| JunctionRef (junction_id : Z).

Section Entities.
Context `{GeometryOps}.

Record Lane : Type := {
  lane_road_id : Z;
  lane_section_idx : Z;
  lane_id : Z;
  lane_type : LaneTypes;
  lane_boundary : option Geometry
}.

Record LaneSection : Type := {
  ls_idx : Z;
  left_lanes : list Lane;
  center_lanes : list Lane;
  right_lanes : list Lane
}.

Record Road : Type := {
  road_id : Z;
  road_boundary : option Geometry;
  road_midline : Geometry;
  road_plan_view : PlanView;
  lane_sections : list LaneSection;
  road_junction : option Z;
  link_predecessor : option ElementRef;
  link_successor : option ElementRef
}.

Record Junction : Type := {
  junction_id : Z;
  junction_boundary : option Geometry;
  junction_roads : list Z;
  junction_group : option JunctionGroup
}.

(** [Map.roads] and [Map.junctions]: dictionaries keyed by id, in
    insertion order. *)
Record Map : Type := {
  roads : list Road;
  junctions : list Junction
}.

(** [ip.Goal], used through its [center] and its [distance] method. *)
Record Goal : Type := {
  center : Point;
  goal_distance : Geometry -> Q
}.
End Entities.

Section MapQueries.
Context `{GeometryOps} `{FloatOps}.

Definition ROAD_PRECISION_ERROR : Q := 1 # 100000000.
Definition LANE_PRECISION_ERROR : Q := 1 # 100000000.

(** Modelled from the spec: [LaneSection.all_lanes] of
    [elements/road_lanes.py], which is not among the sources: the lanes
    of the section, left, center (id 0) and right.  The loops over
    [all_lanes] in [map.py] and [plot_map.py] that test [lane.id == 0]
    show that the center lane is among them. *)
Definition all_lanes (ls : LaneSection) : list Lane :=
  left_lanes ls ++ center_lanes ls ++ right_lanes ls.

Definition is_driving (lane : Lane) : bool :=
  LaneTypes_eqb (lane_type lane) DRIVING.

(** Modelled from the spec: [Road.drivable] of [elements/road.py], which
    is not among the sources: true iff the road owns at least one
    drivable lane. *)
Definition road_drivable (road : Road) : bool :=
  existsb (fun ls => existsb is_driving (all_lanes ls)) (lane_sections road).

(** Modelled from the spec: [Lane.__eq__] of [elements/road_lanes.py],
    which is not among the sources: two lanes are the same lane when road
    id, lane id and section index agree. *)
Definition Lane_eqb (a b : Lane) : bool :=
  (lane_road_id a =? lane_road_id b) && (lane_id a =? lane_id b)
  && (lane_section_idx a =? lane_section_idx b).

(** [lane in candidates] *)
Definition lane_in (lane : Lane) (candidates : list Lane) : bool :=
  existsb (Lane_eqb lane) candidates.

Definition get_road (m : Map) (id : Z) : option Road :=
  List.find (fun r => road_id r =? id) (roads m).

Definition get_junction (m : Map) (id : Z) : option Junction :=
  List.find (fun j => junction_id j =? id) (junctions m).

(** *** [Map.roads_at] *)
Definition roads_at (m : Map) (point : Point) (drivable : bool)
    (max_distance : option Q) : list Road :=
  let max_distance := default ROAD_PRECISION_ERROR max_distance in
  List.filter
    (fun road =>
       match road_boundary road with
       | Some b =>
           Qltb (distance b point) max_distance
           && negb (drivable && negb (road_drivable road))
       | None => false
       end)
    (roads m).

(** *** [Map.lanes_at] *)
Definition lanes_at_lane (point : Point) (drivable_only : bool)
    (max_distance : Q) (candidates : list Lane) (lane : Lane) : list Lane :=
  match lane_boundary lane with
  | Some b =>
      if negb (is_empty b)
         && Qltb (distance b point) max_distance
         && (negb drivable_only || is_driving lane)
         && negb (lane_in lane candidates)
      then candidates ++ [lane]
      else candidates
  | None => candidates
  end.

Definition lanes_at (m : Map) (point : Point) (drivable_only : bool)
    (max_distance : option Q) : list Lane :=
  let max_distance := default LANE_PRECISION_ERROR max_distance in
  let roads := roads_at m point false (Some max_distance) in
  fold_left
    (fun candidates road =>
       fold_left
         (fun candidates lane_section =>
            fold_left (lanes_at_lane point drivable_only max_distance)
                      (all_lanes lane_section) candidates)
         (lane_sections road) candidates)
    roads [].

(** *** [Map.best_road_at] *)

(** [road.plan_view.calc(road.midline.project(point))[1]] *)
Definition road_angle (road : Road) (point : Point) : Q :=
  snd (calc (road_plan_view road) (project (road_midline road) point)).

(** [road.junction]: the junction object of the road, or [None]. *)
Definition junction_of (m : Map) (road : Road) : option Junction :=
  match road_junction road with
  | Some id => get_junction m id
  | None => None
  end.

Definition no_right_lanes (ls : LaneSection) : bool :=
  match right_lanes ls with
  | [] => true
  | _ :: _ => false
  end.

(** The angular difference computed for one road of the loop. *)
Definition heading_diff (m : Map) (point : Point) (original_heading : Q)
    (road : Road) : Q :=
  let angle := road_angle road point in
  let '(heading, angle) :=
    match junction_of m road with
    | Some _ =>
        if forallb no_right_lanes (lane_sections road)
        then (original_heading, normalise_angle (angle + np_pi)%Q)
        else (original_heading, angle)
    | None =>
        if Qltb (np_pi / 2)%Q (Qabs (original_heading - angle)%Q)
        then (normalise_angle (original_heading + np_pi)%Q, angle)
        else (original_heading, angle)
    end in
  Qabs (pymod (heading - angle + np_pi) (2 * np_pi) - np_pi)%Q.

(** One iteration of [for road in roads] on the pair [(best, best_diff)]. *)
Definition best_road_step (m : Map) (point : Point) (original_heading : Q)
    (drivable : bool) (goal : option Goal)
    (st : option Road * efloat) (road : Road) : option Road * efloat :=
  let '(best, best_diff) := st in
  if drivable && negb (road_drivable road) then st
  else
    let diff := heading_diff m point original_heading road in
    match goal, best with
    | Some g, Some b =>
        let dist_best_road_from_goal := goal_distance g (road_midline b) in
        let dist_current_road_from_goal :=
          goal_distance g (road_midline road) in
        if Qltb dist_current_road_from_goal dist_best_road_from_goal
        then (Some road, Fin diff)
        else st
    | _, _ =>
        if lt_efloat diff best_diff then (Some road, Fin diff) else st
    end.

Definition best_road_at (m : Map) (point : Point) (heading : option Q)
    (drivable : bool) (goal : option Goal) : option Road :=
  let roads := roads_at m point false None in
  if (length roads =? 0)%nat then None
  else
    match heading with
    | None => hd_error roads
    | Some h =>
        if (length roads =? 1)%nat then hd_error roads
        else
          let original_heading := normalise_angle h in
          fst (fold_left
                 (best_road_step m point original_heading drivable goal)
                 roads (None, Inf))
    end.

(** *** [Map.best_lane_at] *)

(** [angle_diff] of a lane: 0.0 without a heading. *)
Definition lane_angle_diff (heading : option Q) (original_angle : Q)
    (lane : Lane) : Q :=
  match heading with
  | Some h =>
      let angle :=
        if 0 <? lane_id lane
        then normalise_angle (float_add original_angle np_pi)
        else original_angle in
      Qabs (float_sub h angle)
  | None => 0%Q
  end.

(** One iteration of the inner loop on [best], a pair (score, lane). *)
Definition best_lane_step (point : Point) (heading : option Q)
    (drivable_only : bool) (max_distance : Q) (original_angle : Q)
    (best : option (Q * Lane)) (lane : Lane) : option (Q * Lane) :=
  match lane_boundary lane with
  | Some b =>
      if negb (lane_id lane =? 0) && (negb drivable_only || is_driving lane)
      then
        let distance := distance b point in
        if Qltb distance max_distance then
          let angle_diff := lane_angle_diff heading original_angle lane in
          match best with
          | None => Some (float_add angle_diff distance, lane)
          | Some (score, _) =>
              if Qltb (float_add angle_diff distance) score
              then Some (float_add angle_diff distance, lane)
              else best
          end
        else best
      else best
  | None => best
  end.

Definition best_lane_at (m : Map) (point : Point) (heading : option Q)
    (drivable_only : bool) (max_distance : option Q)
    (goal : option Goal) : option Lane :=
  let max_distance := default LANE_PRECISION_ERROR max_distance in
  match best_road_at m point heading true goal with
  | None => None
  | Some road =>
      let original_angle := road_angle road point in
      let best :=
        fold_left
          (fun best lane_section =>
             fold_left
               (best_lane_step point heading drivable_only max_distance
                               original_angle)
               (all_lanes lane_section) best)
          (lane_sections road) None in
      match best with
      | Some (_, lane) => Some lane
      | None => None
      end
  end.

(** *** [Map.road_in_roundabout] and [Map.in_roundabout] *)

(** The object a link refers to; [IsNone] when the map holds no such id. *)
Inductive Element : Type :=
| IsRoad (r : Road)
| IsJunction (j : Junction)
| IsNone.

Definition element (m : Map) (ref : ElementRef) : Element :=
  match ref with
  | RoadRef id =>
      match get_road m id with Some r => IsRoad r | None => IsNone end
  | JunctionRef id =>
      match get_junction m id with Some j => IsJunction j | None => IsNone end
  end.

Definition is_roundabout_group (g : option JunctionGroup) : bool :=
  match g with
  | Some g => String.eqb (jg_type g) "roundabout"
  | None => false
  end.

(** [e.junction_group is not None and e.junction_group == g]; only a
    junction has the attribute. *)
Definition in_group (e : Element) (g : option JunctionGroup) : result bool :=
  match e with
  | IsJunction j =>
      Ok (match junction_group j with
          | Some _ => opt_group_eqb (junction_group j) g
          | None => false
          end)
  | _ => Raise AttributeError
  end.

(** [a and b] on outcomes of calls: [b] is evaluated only when [a] is
    true.  [None] is a call that has not returned. *)
Definition and_then (a b : option (result bool)) : option (result bool) :=
  match a with
  | Some (Ok true) => b
  | _ => a
  end.

(** [depth] bounds the number of nested calls; [None] when the bound does
    not suffice. *)
Fixpoint road_in_roundabout (depth : nat) (m : Map) (road : Road)
    : option (result bool) :=
  match depth with
  | O => None
  | S depth =>
      match link_predecessor road, link_successor road with
      | Some pred, Some succ =>
          let predecessor := element m pred in
          let successor := element m succ in
          match junction_of m road with
          | Some junction =>
              let group := junction_group junction in
              if is_roundabout_group group then
                match predecessor, successor with
                | IsRoad p, IsRoad s =>
                    and_then (road_in_roundabout depth m p)
                             (road_in_roundabout depth m s)
                | IsJunction _, IsRoad s =>
                    and_then (Some (in_group predecessor group))
                             (road_in_roundabout depth m s)
                | IsRoad p, IsJunction _ =>
                    and_then (Some (in_group successor group))
                             (road_in_roundabout depth m p)
                | _, _ =>
                    and_then (Some (in_group predecessor group))
                             (Some (in_group successor group))
                end
              else Some (Ok false)
          | None =>
              match predecessor, successor with
              | IsJunction pj, IsJunction sj =>
                  let pg := junction_group pj in
                  let sg := junction_group sj in
                  Some (Ok (match pg, sg with
                            | Some p, Some s =>
                                JunctionGroup_eqb p s
                                && String.eqb (jg_type p) (jg_type s)
                                && String.eqb (jg_type s) "roundabout"
                            | _, _ => false
                            end))
              | _, _ => Some (Ok false)
              end
          end
      | _, _ => Some (Ok false)
      end
  end.

Definition in_roundabout (depth : nat) (m : Map) (point : Point)
    (heading : option Q) : option (result bool) :=
  match best_road_at m point heading true None with
  | None => Some (Raise ValueError)
  | Some road => road_in_roundabout depth m road
  end.
End MapQueries.

Section MoreMapQueries.
Context `{GeometryOps} `{FloatOps}.

Definition JUNCTION_PRECISION_ERROR : Q := 1 # 100000000.

(** *** [Map.junction_at] *)

(** The test of the loop: the junction has a boundary within the junction
    precision of the point. *)
Definition junction_near (point : Point) (junction : Junction) : bool :=
  match junction_boundary junction with
  | Some b => Qltb (distance b point) JUNCTION_PRECISION_ERROR
  | None => false
  end.

Definition junction_at (m : Map) (point : Point) : option Junction :=
  List.find (junction_near point) (junctions m).

(** *** [Map.roads_within_angle] *)

(** [junction.roads]: the road objects of a junction. *)
Definition roads_of_junction (m : Map) (junction : Junction) : list Road :=
  omap (get_road m) (junction_roads junction).

(** The body of the loop: [diff < threshold] for one road. *)
Definition within_angle (m : Map) (point : Point)
    (original_heading threshold : Q) (road : Road) : bool :=
  let angle := road_angle road point in
  let heading :=
    match junction_of m road with
    | None =>
        if Qltb (np_pi / 2)%Q (Qabs (original_heading - angle)%Q)
        then normalise_angle (original_heading + np_pi)%Q
        else original_heading
    | Some _ => original_heading
    end in
  let diff := Qabs (normalise_angle (heading - angle)%Q) in
  Qltb diff threshold.

Definition roads_within_angle (m : Map) (point : Point) (heading : Q)
    (threshold : Q) (max_distance : option Q) : list Road :=
  if Qle_bool threshold 0 then []
  else
    let max_distance := default ROAD_PRECISION_ERROR max_distance in
    let roads := roads_at m point false (Some max_distance) in
    if (length roads =? 1)%nat then roads
    else
      let junction_at_point := junction_at m point in
      let roads :=
        match junction_at_point with
        | Some junction =>
            if (1 <? length roads)%nat then roads_of_junction m junction
            else roads
        | None => roads
        end in
      let original_heading := normalise_angle heading in
      List.filter (within_angle m point original_heading threshold) roads.

(** *** [Map.lanes_within_angle] *)

(** The angle a lane is compared with: the road's, turned by pi for a
    lane with a positive id. *)
Definition lane_angle (road : Road) (point : Point) (lane : Lane) : Q :=
  let original_angle := road_angle road point in
  if 0 <? lane_id lane
  then normalise_angle (original_angle + np_pi)%Q
  else original_angle.

Definition lanes_within_angle_lane (point : Point) (heading threshold : Q)
    (drivable_only : bool) (max_distance : Q) (road : Road)
    (ret : list Lane) (lane : Lane) : list Lane :=
  let angle := lane_angle road point lane in
  let angle_diff := Qabs (normalise_angle (heading - angle)%Q) in
  match lane_boundary lane with
  | Some b =>
      if Qltb (distance b point) max_distance
         && negb (lane_id lane =? 0)
         && (negb drivable_only || is_driving lane)
         && Qltb angle_diff threshold
      then ret ++ [lane]
      else ret
  | None => ret
  end.

Definition lanes_within_angle (m : Map) (point : Point) (heading : Q)
    (threshold : Q) (drivable_only : bool) (max_distance : option Q)
    : list Lane :=
  let max_distance := default LANE_PRECISION_ERROR max_distance in
  let roads :=
    roads_within_angle m point heading threshold (Some max_distance) in
  fold_left
    (fun ret road =>
       fold_left
         (fun ret lane_section =>
            fold_left
              (lanes_within_angle_lane point heading threshold drivable_only
                                       max_distance road)
              (all_lanes lane_section) ret)
         (lane_sections road) ret)
    roads [].

(** *** [Map.get_adjacent_lanes] and [Map.adjacent_lanes_at] *)

(** [lane.lane_section]: the section of its road a lane belongs to, found
    by road id and section index. *)
Definition lane_section_of (m : Map) (lane : Lane) : option LaneSection :=
  match get_road m (lane_road_id lane) with
  | Some road =>
      List.find (fun ls => ls_idx ls =? lane_section_idx lane)
                (lane_sections road)
  | None => None
  end.

(** The tests of the loop body for one lane of the section. *)
Definition is_adjacent (current_lane : Lane)
    (same_direction drivable_only : bool) (lane : Lane) : bool :=
  let direction := Z.sgn (lane_id current_lane) in
  negb (lane_id lane =? lane_id current_lane) && negb (lane_id lane =? 0)
  && (let dirs_equal := Z.sgn (lane_id lane) =? direction in
      let drivable := is_driving lane in
      if same_direction && drivable_only then dirs_equal && drivable
      else if same_direction then dirs_equal
      else if drivable_only then drivable
      else true).

Definition get_adjacent_lanes (m : Map) (current_lane : Lane)
    (same_direction drivable_only : bool) : result (list Lane) :=
  match lane_section_of m current_lane with
  | Some lane_section =>
      Ok (List.filter (is_adjacent current_lane same_direction drivable_only)
                      (all_lanes lane_section))
  | None => Raise AttributeError
  end.

(** [best_lane_at] may return [None], whose [id] the callee reads. *)
Definition adjacent_lanes_at (m : Map) (point : Point) (heading : option Q)
    (same_direction drivable_only : bool) : result (list Lane) :=
  match best_lane_at m point heading true None None with
  | Some current_lane =>
      get_adjacent_lanes m current_lane same_direction drivable_only
  | None => Raise AttributeError
  end.

(** *** [Map.get_lane] *)

(** Modelled from the spec: [LaneSection.get_lane] of
    [elements/road_lanes.py], which is not among the sources: the direct
    lookup of the lane of the section with the given id. *)
Definition LaneSection_get_lane (ls : LaneSection) (id : Z) : option Lane :=
  List.find (fun lane => lane_id lane =? id) (all_lanes ls).

Definition get_lane (m : Map) (road_id lane_id lane_section_idx : Z)
    : result (option Lane) :=
  match get_road m road_id with
  | None => Raise AttributeError
  | Some road =>
      let lane_sections := lane_sections road in
      if (0 <=? lane_section_idx)
         && (lane_section_idx <? Z.of_nat (length lane_sections))
      then
        match nth_error lane_sections (Z.to_nat lane_section_idx) with
        | Some ls => Ok (LaneSection_get_lane ls lane_id)
        | None => Raise IndexError
        end
      else Raise AssertionError
  end.
End MoreMapQueries.

Section MapConstruction.
Context `{GeometryOps}.

(** The parsed description a map is built from. *)
Record OpenDrive : Type := {
  od_roads : list Road;
  od_junctions : list Junction;
  od_junction_groups : list JunctionGroup
}.

(** The loop
    [for x in xs: assert x.id not in d; d[x.id] = x]
    on a dictionary in insertion order. *)
Fixpoint insert_all {A : Type} (id : A -> Z) (xs : list A) (d : list A)
    : result (list A) :=
  match xs with
  | [] => Ok d
  | x :: xs =>
      if existsb (fun y => id y =? id x) d then Raise AssertionError
      else insert_all id xs (d ++ [x])
  end.

(** [Map.__process_road_layout]: the three dictionaries of the map.  The
    road and junction records hold the geometry that [precalculate],
    [calculate_road_geometry] and [calculate_boundary] compute. *)
Definition process_road_layout (opendrive : OpenDrive)
    : result (Map * list JunctionGroup) :=
  match insert_all road_id (od_roads opendrive) [] with
  | Raise e => Raise e
  | Ok roads =>
      match insert_all junction_id (od_junctions opendrive) [] with
      | Raise e => Raise e
      | Ok junctions =>
          match insert_all jg_id (od_junction_groups opendrive) [] with
          | Raise e => Raise e
          | Ok junction_groups =>
              Ok ({| roads := roads; junctions := junctions |},
                  junction_groups)
          end
      end
  end.
End MapConstruction.

(** ** Agents *)

(** [ip.Action(acceleration, steer_angle)] *)
Record Action : Type := {
  acceleration : Q;
  steer_angle : Q
}.

Record AgentState : Type := {
  position : Point;
  heading : Q;
  speed : Q;
  time : Z
}.

(** The values keyword arguments of a macro action hold. *)
Inductive pyval : Type :=
| VPoint (p : Point)
| VFloat (q : Q)
| VBool (b : bool).

(** A parameter set of a macro action: a [dict] from keyword to value. *)
Abbreviation kwargs := (gmap string pyval).

(** The class of a class object, [type(cls)]: [type], or [abc.ABCMeta]
    for classes that derive from [abc.ABC]. *)
Inductive metaclass : Type :=
| type_
| ABCMeta.

(** [issubclass(a, b)] on these two; [ABCMeta] derives from [type]. *)
Definition issubclass_meta (a b : metaclass) : bool :=
  match a, b with
  | type_, ABCMeta => false
  | _, _ => true
  end.

Section Observations.
Context `{GeometryOps}.

Record Observation : Type := {
  frame : gmap Z AgentState;
  scenario_map : Map
}.
End Observations.

(** Instances of [ip.MacroAction]: the completion predicate [done] and
    [next_action], which advances the macro action and yields a command. *)
Class MacroActionOps `{GeometryOps} : Type := {
  MacroAction : Type;
  ma_done : MacroAction -> Observation -> bool;
  ma_next_action : MacroAction -> Observation -> MacroAction * result Action
}.

Section MacroActionClasses.
Context `{MacroActionOps}.

(** A macro-action class object: its name, the names of the classes it
    derives from (itself included), its metaclass, the static
    [get_possible_args] and its constructor
    [cls(agent_id, frame, scenario_map, open_loop, **kwargs)]. *)
Record MacroActionClass : Type := {
  cls_name : string;
  cls_mro : list string;
  cls_type : metaclass;
  get_possible_args : AgentState -> Map -> Point -> list kwargs;
  cls_new : Z -> gmap Z AgentState -> Map -> bool -> kwargs -> MacroAction
}.
End MacroActionClasses.

(** What the agents import from the package: the class [ip.Exit] and the
    planner [ip.AStar(max_iter=1000).search], which returns a cost and a
    list of plans. *)
Class PlanningOps `{MacroActionOps} : Type := {
  Exit : MacroActionClass;
  astar_search :
    Z -> gmap Z AgentState -> option Goal -> Map -> bool ->
    Q * list (list MacroAction)
}.

Section Agents.
Context `{PlanningOps}.

(** The fields of a [TrafficAgent] that the methods below use. *)
Record Agent : Type := {
  agent_id : Z;
  _goal : option Goal;
  _current_macro : option MacroAction;
  _macro_actions : list MacroAction
}.

Definition set_goal (goal : option Goal) (self : Agent) : Agent :=
  {| agent_id := agent_id self; _goal := goal;
     _current_macro := _current_macro self;
     _macro_actions := _macro_actions self |}.

Definition set_current_macro (ma : option MacroAction) (self : Agent) : Agent :=
  {| agent_id := agent_id self; _goal := _goal self;
     _current_macro := ma;
     _macro_actions := _macro_actions self |}.

Definition set_macro_list (l : list MacroAction) (self : Agent) : Agent :=
  {| agent_id := agent_id self; _goal := _goal self;
     _current_macro := _current_macro self;
     _macro_actions := l |}.

(** A method call: it may change the agent and returns or raises;
    changes made before an exception is raised stay. *)
Definition M (A : Type) : Type := Agent -> Agent * result A.

Definition ret {A} (a : A) : M A := fun self => (self, Ok a).

Definition raise {A} (e : exn) : M A := fun self => (self, Raise e).

Definition bind {A B} (c : M A) (k : A -> M B) : M B :=
  fun self =>
    match c self with
    | (self', Ok a) => k a self'
    | (self', Raise e) => (self', Raise e)
    end.

Definition get_self : M Agent := fun self => (self, Ok self).

Definition modify (f : Agent -> Agent) : M unit := fun self => (f self, Ok tt).
End Agents.

Declare Scope agent_scope.
Delimit Scope agent_scope with agent.
Notation "x <- c ;; k" := (bind c (fun x => k))
  (at level 100, c at next level, right associativity) : agent_scope.
Notation "c ;;; k" := (bind c (fun _ => k))
  (at level 100, right associativity) : agent_scope.

Section AgentMethods.
Context `{PlanningOps} `{FloatOps}.
Local Open Scope agent_scope.

(** *** [MacroAgent] *)

(** [MacroAgent.done]: asserts that a macro action is set. *)
Definition MacroAgent_done (observation : Observation) : M bool :=
  self <- get_self ;;
  match _current_macro self with
  | None => raise AssertionError
  | Some ma => ret (ma_done ma observation)
  end.

(** [isinstance(new_macro_action, type(ip.Exit))]: the object tested is
    the class itself, so the test is on its metaclass. *)
Definition isinstance_type_Exit (new_macro_action : MacroActionClass) : bool :=
  issubclass_meta (cls_type new_macro_action) (cls_type Exit).

(** [[t["turn_target"] for t in possible_args if "turn_target" in t]] *)
Definition turn_targets (possible_args : list kwargs) : list pyval :=
  omap (fun t : kwargs => t !! "turn_target"%string) possible_args.

(** The rows of [np.array(...)] as points, when every entry is one. *)
Fixpoint as_points (vs : list pyval) : option (list Point) :=
  match vs with
  | [] => Some []
  | VPoint p :: vs =>
      match as_points vs with
      | Some ps => Some (p :: ps)
      | None => None
      end
  | _ :: _ => None
  end.

(** [np.linalg.norm(ps - goal_center, axis=1)]: the norm of every row. *)
Definition norms (goal_center : Point) (ps : list Point) : list efloat :=
  map (fun p => float_norm_diff p goal_center) ps.

(** [np.argmin]: the index of the first least entry, from position [i]
    on, given the best index and value so far. *)
Fixpoint argmin_from (i : nat) (best : nat) (best_v : efloat)
    (vs : list efloat) : nat :=
  match vs with
  | [] => best
  | v :: vs =>
      if efloat_ltb v best_v then argmin_from (S i) i v vs
      else argmin_from (S i) best best_v vs
  end.

Definition argmin (vs : list efloat) : option nat :=
  match vs with
  | [] => None
  | v :: vs => Some (argmin_from 1 0%nat v vs)
  end.

(** The body of the [if]: keep only the turn target closest to the goal
    center.  numpy raises when no row or a row that is no point is left. *)
Definition closest_turn_target (goal_center : Point)
    (possible_args : list kwargs) : result (list kwargs) :=
  match as_points (turn_targets possible_args) with
  | Some ps =>
      match argmin (norms goal_center ps) with
      | Some closest =>
          match nth_error ps closest with
          | Some p => Ok [ {[ "turn_target"%string := VPoint p ]} ]
          | None => Raise IndexError
          end
      | None => Raise ValueError
      end
  | None => Raise ValueError
  end.

Definition narrows (new_macro_action : MacroActionClass)
    (possible_args : list kwargs) : bool :=
  (1 <? length possible_args)%nat && isinstance_type_Exit new_macro_action.

(** [MacroAgent.update_macro_action] *)
Definition update_macro_action (new_macro_action : MacroActionClass)
    (observation : Observation) : M unit :=
  self <- get_self ;;
  let frame := frame observation in
  let scenario_map := scenario_map observation in
  match frame !! agent_id self with
  | None => raise KeyError
  | Some state =>
      match _goal self with
      | None => raise AttributeError
      | Some goal =>
          let possible_args :=
            get_possible_args new_macro_action state scenario_map
                              (center goal) in
          match
            (if narrows new_macro_action possible_args
             then closest_turn_target (center goal) possible_args
             else Ok possible_args)
          with
          | Raise e => raise e
          | Ok possible_args =>
              modify
                (fun self =>
                   fold_left
                     (fun self kw =>
                        set_current_macro
                          (Some (cls_new new_macro_action (agent_id self)
                                         frame scenario_map false kw))
                          self)
                     possible_args self)
          end
      end
  end.

(** *** [TrafficAgent] *)

(** [TrafficAgent.set_destination] *)
Definition set_destination (observation : Observation)
    (goal : option Goal) : M unit :=
  (match goal with
   | Some g => modify (set_goal (Some g))
   | None => ret tt
   end) ;;;
  self <- get_self ;;
  let '(_, actions) :=
    astar_search (agent_id self) (frame observation) (_goal self)
                 (scenario_map observation) false in
  match actions with
  | [] => raise RuntimeError
  | plan :: _ => modify (set_macro_list plan)
  end.

(** [TrafficAgent.done] *)
Definition done (observation : Observation) : M bool :=
  self <- get_self ;;
  if (length (_macro_actions self) =? 0)%nat
  then MacroAgent_done observation
  else ret false.

(** [TrafficAgent._advance_macro]; [pop(0)] of an empty list raises. *)
Definition _advance_macro (observation : Observation) : M unit :=
  self <- get_self ;;
  match _macro_actions self with
  | [] => raise IndexError
  | ma :: rest =>
      modify (set_macro_list rest) ;;;
      modify (set_current_macro (Some ma))
  end.

(** [self._current_macro.next_action(observation)] *)
Definition current_macro_next_action (observation : Observation) : M Action :=
  self <- get_self ;;
  match _current_macro self with
  | None => raise AttributeError
  | Some ma =>
      let '(ma', r) := ma_next_action ma observation in
      modify (set_current_macro (Some ma')) ;;;
      match r with
      | Ok a => ret a
      | Raise e => raise e
      end
  end.

(** [TrafficAgent.next_action] *)
Definition next_action (observation : Observation) : M Action :=
  self <- get_self ;;
  (match _current_macro self with
   | None =>
       (if (length (_macro_actions self) =? 0)%nat
        then set_destination observation None
        else ret tt) ;;;
       _advance_macro observation
   | Some _ => ret tt
   end) ;;;
  self <- get_self ;;
  match _current_macro self with
  | None => raise AttributeError
  | Some ma =>
      if ma_done ma observation then
        if (0 <? length (_macro_actions self))%nat then
          _advance_macro observation ;;;
          current_macro_next_action observation
        else ret {| acceleration := 0; steer_angle := 0 |}
      else current_macro_next_action observation
  end.

(** The results of calling [next_action] once per observation. *)
Fixpoint next_actions (observations : list Observation) (self : Agent)
    : Agent * list (result Action) :=
  match observations with
  | [] => (self, [])
  | o :: os =>
      let '(self', r) := next_action o self in
      let '(self'', rs) := next_actions os self' in
      (self'', r :: rs)
  end.
End AgentMethods.

Section MoreAgentMethods.
Context `{PlanningOps}.
Local Open Scope agent_scope.

(** [TrafficAgent.set_macro_actions] *)
Definition set_macro_actions (new_macros : list MacroAction) : M unit :=
  if (0 <? length new_macros)%nat
  then modify (set_macro_list new_macros)
  else raise AssertionError.
End MoreAgentMethods.

(** ** Vocabulary of the properties *)

Section MapVocabulary.
Context `{GeometryOps} `{FloatOps}.

(** The candidates the scoring loop accepts. *)
Definition accepted (drivable : bool) (road : Road) : bool :=
  negb (drivable && negb (road_drivable road)).

(** The fold the goal-based selection is said to be: the first candidate
    becomes the running best, a later one replaces it iff its midline is
    strictly closer to the goal. *)
Definition goal_fold_step (g : Goal) (best : option Road) (road : Road)
    : option Road :=
  match best with
  | None => Some road
  | Some b =>
      if Qltb (goal_distance g (road_midline road))
              (goal_distance g (road_midline b))
      then Some road
      else Some b
  end.

Definition goal_left_fold (g : Goal) (candidates : list Road) : option Road :=
  fold_left (goal_fold_step g) candidates None.

(** The lanes of the road that the loop of [best_lane_at] scores: they
    have a boundary, are not the center lane, are drivable when
    [drivable_only], and their boundary is within [max_distance]. *)
Definition eligible_lane (point : Point) (drivable_only : bool)
    (max_distance : Q) (lane : Lane) : bool :=
  match lane_boundary lane with
  | Some b =>
      negb (lane_id lane =? 0) && (negb drivable_only || is_driving lane)
      && Qltb (distance b point) max_distance
  | None => false
  end.

Definition road_lanes (road : Road) : list Lane :=
  flat_map all_lanes (lane_sections road).

Definition lane_candidates (road : Road) (point : Point)
    (drivable_only : bool) (max_distance : Q) : list Lane :=
  List.filter (eligible_lane point drivable_only max_distance)
              (road_lanes road).

(** The score the loop computes for a lane. *)
Definition lane_score (point : Point) (heading : option Q)
    (original_angle : Q) (lane : Lane) : Q :=
  match lane_boundary lane with
  | Some b =>
      float_add (lane_angle_diff heading original_angle lane)
                (distance b point)
  | None => 0%Q
  end.

(** The heading of the road's reference line where the point projects
    on its midline. *)
Definition road_tangent (road : Road) (point : Point) : Q :=
  snd (calc (road_plan_view road) (project (road_midline road) point)).

(** The direction of a lane at the point: the tangent of its road, turned
    by pi for a lane with a positive id. *)
Definition lane_direction (road : Road) (point : Point) (lane : Lane) : Q :=
  if 0 <? lane_id lane
  then normalise_angle (float_add (road_tangent road point) np_pi)
  else road_tangent road point.

(** The angle difference, in radians, between the heading and a
    direction; zero when no heading is given. *)
Definition angle_difference (heading : option Q) (direction : Q) : Q :=
  match heading with
  | Some h => Qabs (float_sub h direction)
  | None => 0%Q
  end.

(** The plain sum of the angle difference of a lane and the distance of
    its boundary from the point, as floats add. *)
Definition plain_sum (road : Road) (point : Point) (heading : option Q)
    (lane : Lane) : Q :=
  match lane_boundary lane with
  | Some b =>
      float_add (angle_difference heading (lane_direction road point lane))
                (distance b point)
  | None => 0%Q
  end.

(** What the loop holds after the lanes [l]: nothing when no lane of [l]
    is eligible, else an eligible lane of [l], with its score, that no
    eligible lane of [l] beats. *)
Definition least_of (point : Point) (heading : option Q) (d : bool)
    (md oa : Q) (l : list Lane) (best : option (Q * Lane)) : Prop :=
  match best with
  | None => List.filter (eligible_lane point d md) l = []
  | Some (score, lane) =>
      score = lane_score point heading oa lane
      /\ In lane (List.filter (eligible_lane point d md) l)
      /\ forall lane', In lane' (List.filter (eligible_lane point d md) l) ->
                       (score <= lane_score point heading oa lane')%Q
  end.

(** [road_in_roundabout road] may call itself on [callee]: the road
    belongs to a junction of a roundabout group and [callee] is the road
    its predecessor or successor link refers to. *)
Definition recursive_call (m : Map) (road callee : Road) : Prop :=
  exists pred succ junction,
    link_predecessor road = Some pred
    /\ link_successor road = Some succ
    /\ junction_of m road = Some junction
    /\ is_roundabout_group (junction_group junction) = true
    /\ (element m pred = IsRoad callee \/ element m succ = IsRoad callee).

(** No two entries are the same lane. *)
Fixpoint distinct_lanes (l : list Lane) : bool :=
  match l with
  | [] => true
  | x :: t => negb (lane_in x t) && distinct_lanes t
  end.
End MapVocabulary.

Section AgentVocabulary.
Context `{PlanningOps}.

(** The neutral command [ip.Action(0, 0)]. *)
Definition stop : Action := {| acceleration := 0; steer_angle := 0 |}.

(** The goal the planner is called with. *)
Definition goal_for_search (goal : option Goal) (self : Agent) : option Goal :=
  match goal with
  | Some g => Some g
  | None => _goal self
  end.

(** [issubclass(cls, ip.Exit)]: the requested type is an exit maneuver. *)
Definition is_exit_maneuver (cls : MacroActionClass) : bool :=
  existsb (String.eqb (cls_name Exit)) (cls_mro cls).
End AgentVocabulary.

Section MoreMapVocabulary.
Context `{GeometryOps}.

(** The road has a boundary closer than [d] to the point. *)
Definition road_within (point : Point) (d : Q) (road : Road) : bool :=
  match road_boundary road with
  | Some b => Qltb (distance b point) d
  | None => false
  end.

(** The lane has a non-empty boundary closer than [max_distance] to the
    point and is drivable when [drivable_only]. *)
Definition lane_through (point : Point) (drivable_only : bool)
    (max_distance : Q) (lane : Lane) : bool :=
  match lane_boundary lane with
  | Some b =>
      negb (is_empty b) && Qltb (distance b point) max_distance
      && (negb drivable_only || is_driving lane)
  | None => false
  end.

(** [lane] is a lane of a section of one of [roads]. *)
Definition lane_of_roads (roads : list Road) (lane : Lane) : Prop :=
  exists road ls,
    In road roads /\ In ls (lane_sections road) /\ In lane (all_lanes ls).

End MoreMapVocabulary.

Section BestRoadVocabulary.
Context `{GeometryOps}.

End BestRoadVocabulary.

(** ** A concrete instance of the interfaces

    Geometries are given by what their methods return, macro actions by a
    name, the turn target they were built with and a completion flag.  The
    maps below are the inputs of the examples. *)
Module Demo.

Record geom : Type := {
  g_distance : Point -> Q;
  g_is_empty : bool;
  g_project : Point -> Q
}.

#[export] Instance geometry : GeometryOps := {|
  Geometry := geom;
  PlanView := Q -> Point * Q;
  distance := g_distance;
  is_empty := g_is_empty;
  project := g_project;
  calc := fun pv s => pv s;
  np_pi := 355 # 113;
  normalise_angle :=
    fun a => (pymod (a + (355 # 113)) (2 * (355 # 113)) - (355 # 113))%Q
|}.

(** Floats with four binary digits after the point and no value above
    1024: sums and differences are rounded to the nearest sixteenth, the
    norm is rounded down to a sixteenth and overflows to [np.inf]. *)
Definition round16 (q : Q) : Q :=
  inject_Z (Qfloor (q * 16 + (1 # 2))) / 16.

Definition norm16 (p c : Point) : efloat :=
  let s := ((fst p - fst c) * (fst p - fst c)
            + (snd p - snd c) * (snd p - snd c))%Q in
  if Qltb (1024 * 1024) s then Inf
  else Fin (inject_Z (Z.sqrt (Qfloor (s * 256))) / 16).

#[export] Instance floats : FloatOps := {|
  float_add := fun x y => round16 (x + y);
  float_sub := fun x y => round16 (x - y);
  float_norm_diff := norm16
|}.

(** A geometry at distance [d] of every point. *)
Definition at_distance (d : Q) : geom :=
  {| g_distance := fun _ => d; g_is_empty := false; g_project := fun _ => 0%Q |}.

(** A straight plan view with constant heading [a]. *)
Definition straight (a : Q) : Q -> Point * Q := fun s => ((s, 0%Q), a).

Definition origin : Point := (0%Q, 0%Q).

Definition lane (road id : Z) (type : LaneTypes) (d : Q) : Lane :=
  {| lane_road_id := road; lane_section_idx := 0; lane_id := id;
     lane_type := type; lane_boundary := Some (at_distance d) |}.

(** One lane section with a left lane, the center lane and a right lane,
    all of them through every point. *)
Definition section (road : Z) (type : LaneTypes) : LaneSection :=
  {| ls_idx := 0;
     left_lanes := [lane road 1 type 0];
     center_lanes := [lane road 0 NONE_TYPE 0];
     right_lanes := [lane road (-1) type 0] |}.

Definition road (id : Z) (type : LaneTypes) (midline : geom)
    (junction : option Z) (pred succ : option ElementRef) : Road :=
  {| road_id := id; road_boundary := Some (at_distance 0);
     road_midline := midline; road_plan_view := straight 0;
     lane_sections := [section id type];
     road_junction := junction;
     link_predecessor := pred; link_successor := succ |}.

(** Two connecting roads of a roundabout junction that are each other's
    predecessor and successor. *)
Definition roundabout_group : JunctionGroup :=
  {| jg_id := 1; jg_type := "roundabout" |}.

Definition road_a : Road :=
  road 1 DRIVING (at_distance 0) (Some 10)
       (Some (RoadRef 2)) (Some (RoadRef 2)).

Definition road_b : Road :=
  road 2 DRIVING (at_distance 0) (Some 10)
       (Some (RoadRef 1)) (Some (RoadRef 1)).

Definition cyclic_roundabout_map : Map :=
  {| roads := [road_a; road_b];
     junctions := [ {| junction_id := 10; junction_boundary := None;
                       junction_roads := [1; 2];
                       junction_group := Some roundabout_group |} ] |}.

(** Two plain roads that are each other's predecessor and successor. *)
Definition road_c : Road :=
  road 3 DRIVING (at_distance 0) None
       (Some (RoadRef 4)) (Some (RoadRef 4)).

Definition road_d : Road :=
  road 4 DRIVING (at_distance 0) None
       (Some (RoadRef 3)) (Some (RoadRef 3)).

Definition cyclic_plain_map : Map :=
  {| roads := [road_c; road_d]; junctions := [] |}.

(** A roundabout: two junctions of one roundabout group, two plain roads
    between them, and a connecting road of the first junction. *)
Definition roundabout_junction (id : Z) : Junction :=
  {| junction_id := id; junction_boundary := None; junction_roads := [];
     junction_group := Some roundabout_group |}.

Definition ring_1 : Road :=
  road 21 DRIVING (at_distance 0) None
       (Some (JunctionRef 10)) (Some (JunctionRef 11)).

Definition ring_2 : Road :=
  road 22 DRIVING (at_distance 0) None
       (Some (JunctionRef 11)) (Some (JunctionRef 10)).

Definition connector : Road :=
  road 23 DRIVING (at_distance 0) (Some 10)
       (Some (RoadRef 22)) (Some (RoadRef 21)).

(** An entry of the roundabout: it comes from a plain road that is part of
    a cycle of plain roads. *)
Definition entry : Road :=
  road 24 DRIVING (at_distance 0) (Some 10)
       (Some (RoadRef 3)) (Some (RoadRef 21)).

Definition roundabout_map : Map :=
  {| roads := [ring_1; ring_2; connector; entry; road_c; road_d];
     junctions := [roundabout_junction 10; roundabout_junction 11] |}.

(** A rank on roads that decreases along the calls of
    [road_in_roundabout] on [roundabout_map]: plain roads are answered
    directly, the two roads of the junction call plain roads only. *)
Definition refers_to (id : Z) (ref : option ElementRef) : bool :=
  match ref with
  | Some (RoadRef i) => i =? id
  | _ => false
  end.

Definition rank (r : Road) : nat :=
  match road_junction r with
  | None => 0
  | Some _ =>
      if refers_to 23 (link_predecessor r) || refers_to 24 (link_predecessor r)
         || refers_to 23 (link_successor r) || refers_to 24 (link_successor r)
      then 2
      else 1
  end.

(** A single road that owns no drivable lane. *)
Definition footpath : Road :=
  road 5 SIDEWALK (at_distance 0) None None None.

Definition footpath_map : Map :=
  {| roads := [footpath]; junctions := [] |}.

(** Three drivable roads through the origin whose midlines are at
    distance 5, 3 and 4 of the goal. *)
Definition goal_at_midline_distance : Goal :=
  {| center := (10%Q, 0%Q); goal_distance := fun g => g_distance g origin |}.

Definition road_far : Road := road 6 DRIVING (at_distance 5) None None None.
Definition road_near : Road := road 7 DRIVING (at_distance 3) None None None.
Definition road_mid : Road := road 8 DRIVING (at_distance 4) None None None.

Definition three_roads_map : Map :=
  {| roads := [road_far; road_near; road_mid]; junctions := [] |}.

(** Macro actions. *)
Record macro : Type := {
  m_name : string;
  m_target : option pyval;
  m_done : bool
}.

#[export] Instance macro_actions : MacroActionOps := {|
  MacroAction := macro;
  ma_done := fun ma _ => m_done ma;
  ma_next_action :=
    fun ma _ => (ma, Ok {| acceleration := 1; steer_angle := 0 |})
|}.

Definition two_targets : list kwargs :=
  [ {[ "turn_target"%string := VPoint (9%Q, 0%Q) ]};
    {[ "turn_target"%string := VPoint (20%Q, 0%Q) ]} ].

(** A class named [name] that derives from the classes [mro], offers the
    two turn targets above and records the target it is built with. *)
Definition class (name : string) (mro : list string) (meta : metaclass)
    : MacroActionClass :=
  {| cls_name := name; cls_mro := mro; cls_type := meta;
     get_possible_args := fun _ _ _ => two_targets;
     cls_new := fun _ _ _ _ kw =>
       {| m_name := name; m_target := kw !! "turn_target"%string;
          m_done := false |} |}.

(** The planner finds no path. *)
#[export] Instance planning : PlanningOps := {|
  Exit := class "Exit" ["Exit"; "MacroAction"]%string ABCMeta;
  astar_search := fun _ _ _ _ _ => (0%Q, [])
|}.

(** A macro-action class other than [Exit], declared like it. *)
Definition Continue : MacroActionClass :=
  class "Continue" ["Continue"; "MacroAction"]%string ABCMeta.

(** A class that offers the interface without deriving from
    [MacroAction]; its metaclass is [type]. *)
Definition Duck : MacroActionClass := class "Duck" ["Duck"]%string type_.

Definition state0 : AgentState :=
  {| position := origin; heading := 0; speed := 0; time := 0 |}.

Definition observation0 : Observation :=
  {| frame := {[ 0 := state0 ]}; scenario_map := three_roads_map |}.

(** A newly created agent: no macro action, no plan. *)
Definition fresh_agent : Agent :=
  {| agent_id := 0; _goal := Some goal_at_midline_distance;
     _current_macro := None; _macro_actions := [] |}.

(** An agent whose last macro action is completed. *)
Definition finished_agent : Agent :=
  {| agent_id := 0; _goal := Some goal_at_midline_distance;
     _current_macro :=
       Some {| m_name := "Continue"; m_target := None; m_done := true |};
     _macro_actions := [] |}.

(** Roads at distance 0, 3/4 and 2 of every point. *)
Definition road_away (id : Z) (d : Q) : Road :=
  {| road_id := id; road_boundary := Some (at_distance d);
     road_midline := at_distance d; road_plan_view := straight 0;
     lane_sections := [section id DRIVING];
     road_junction := None;
     link_predecessor := None; link_successor := None |}.

Definition spread_map : Map :=
  {| roads := [road_away 41 0; road_away 42 (3 # 4); road_away 43 2];
     junctions := [] |}.



(** A parsed description with two roads. *)
Definition description : OpenDrive :=
  {| od_roads := [road_far; road_near]; od_junctions := [];
     od_junction_groups := [roundabout_group] |}.

(** Classes with given parameter sets. *)
Definition class_with (name : string) (mro : list string) (meta : metaclass)
    (args : list kwargs) : MacroActionClass :=
  {| cls_name := name; cls_mro := mro; cls_type := meta;
     get_possible_args := fun _ _ _ => args;
     cls_new := fun _ _ _ _ kw =>
       {| m_name := name; m_target := kw !! "turn_target"%string;
          m_done := false |} |}.

Definition StopMA : MacroActionClass :=
  class_with "StopMA" ["StopMA"; "MacroAction"]%string ABCMeta [].

Definition ChangeLane : MacroActionClass :=
  class_with "ChangeLane" ["ChangeLane"; "MacroAction"]%string ABCMeta
    [ {[ "left"%string := VBool true ]}; {[ "left"%string := VBool false ]} ].

Definition cruise : macro :=
  {| m_name := "Continue"; m_target := None; m_done := false |}.

Definition arrived : macro :=
  {| m_name := "Continue"; m_target := None; m_done := true |}.

(** A planner that finds two plans, and one whose first plan is empty. *)
Definition planning_found : PlanningOps := {|
  Exit := class "Exit" ["Exit"; "MacroAction"]%string ABCMeta;
  astar_search := fun _ _ _ _ _ => (1%Q, [[cruise; arrived]; [arrived]])
|}.

Definition planning_empty_plan : PlanningOps := {|
  Exit := class "Exit" ["Exit"; "MacroAction"]%string ABCMeta;
  astar_search := fun _ _ _ _ _ => (0%Q, [[]])
|}.

(** An agent whose current macro action is done, with two more planned. *)
Definition agent_mid_plan : Agent :=
  {| agent_id := 0; _goal := Some goal_at_midline_distance;
     _current_macro := Some arrived;
     _macro_actions := [cruise; arrived] |}.

(** A road whose center lane has an empty boundary. *)
Definition empty_geometry : geom :=
  {| g_distance := fun _ => 0%Q; g_is_empty := true;
     g_project := fun _ => 0%Q |}.

Definition bare_center_section : LaneSection :=
  {| ls_idx := 0;
     left_lanes := [lane 9 1 DRIVING 0];
     center_lanes :=
       [ {| lane_road_id := 9; lane_section_idx := 0; lane_id := 0;
            lane_type := NONE_TYPE; lane_boundary := Some empty_geometry |} ];
     right_lanes := [lane 9 (-1) DRIVING 0] |}.

Definition bare_center_map : Map :=
  {| roads :=
       [ {| road_id := 9; road_boundary := Some (at_distance 0);
            road_midline := at_distance 0; road_plan_view := straight 0;
            lane_sections := [bare_center_section];
            road_junction := None;
            link_predecessor := None; link_successor := None |} ];
     junctions := [] |}.

(** A road with two right lanes whose boundaries are at distance 1/64 and
    1/128 of every point. *)
Definition rounding_map : Map :=
  {| roads :=
       [ {| road_id := 50; road_boundary := Some (at_distance 0);
            road_midline := at_distance 0; road_plan_view := straight 0;
            lane_sections :=
              [ {| ls_idx := 0; left_lanes := []; center_lanes := [];
                   right_lanes := [lane 50 (-1) DRIVING (1 # 64);
                                   lane 50 (-2) DRIVING (1 # 128)] |} ];
            road_junction := None;
            link_predecessor := None; link_successor := None |} ];
     junctions := [] |}.

(** An exit with two turn targets so far from the goal center that the
    norm overflows for both. *)
Definition ExitFar : MacroActionClass :=
  class_with "Exit" ["Exit"; "MacroAction"]%string ABCMeta
    [ {[ "turn_target"%string := VPoint (2000%Q, 0%Q) ]};
      {[ "turn_target"%string := VPoint (1500%Q, 0%Q) ]} ].

(** Macro actions that lead to an end point, given by its first
    coordinate: done while the vehicle is within 1/2 of it, they
    accelerate before it and have no maneuver left past it. *)
Definition drift_macros : MacroActionOps := {|
  MacroAction := Q;
  ma_done := fun target observation =>
    match frame observation !! 0 with
    | Some state =>
        Qle_bool (Qabs (fst (position state) - target)) (1 # 2)
    | None => false
    end;
  ma_next_action := fun target observation =>
    match frame observation !! 0 with
    | Some state =>
        if Qle_bool (fst (position state)) target
        then (target, Ok {| acceleration := 1; steer_angle := 0 |})
        else (target, Raise IndexError)
    | None => (target, Raise KeyError)
    end
|}.

Definition drift_planning : @PlanningOps geometry drift_macros := {|
  Exit :=
    @Build_MacroActionClass geometry drift_macros
      "Exit" ["Exit"; "MacroAction"]%string ABCMeta
      (fun _ _ _ => []) (fun _ _ _ _ _ => 0%Q);
  astar_search := fun _ _ _ _ _ => (0%Q, [])
|}.

Definition observation_at (x : Q) : Observation :=
  {| frame := {[ 0 := {| position := (x, 0%Q); heading := 0; speed := 0;
                         time := 0 |} ]};
     scenario_map := three_roads_map |}.

(** An agent at the end point 5 of its last macro action. *)
Definition drift_agent : @Agent geometry drift_macros :=
  @Build_Agent geometry drift_macros 0 None (Some 5%Q) [].
End Demo.

(** * Properties *)

Lemma Qltb_lt (x y : Q) : Qltb x y = true <-> (x < y)%Q.
Proof. unfold Qltb, Qlt. apply Z.ltb_lt. Qed.

Lemma Qltb_ge (x y : Q) : Qltb x y = false <-> (y <= x)%Q.
Proof. unfold Qltb, Qle. apply Z.ltb_ge. Qed.

(** A loop keeps what each of its iterations keeps. *)
Lemma fold_left_preserves {A B} (P : A -> Prop) (f : A -> B -> A) (l : list B) :
  (forall a x, P a -> P (f a x)) -> forall a, P a -> P (fold_left f l a).
Proof.
  intros Hf. induction l as [|x l IH]; intros a Ha; cbn; auto.
Qed.

Section MapProperties.
Context `{GeometryOps} `{FloatOps}.

(** ** [best_road_at] *)

Lemma roads_at_nonempty_length (l : list Road) (road : Road) (rest : list Road) :
  l = road :: rest -> (length l =? 0)%nat = false.
Proof. intros ->. reflexivity. Qed.

(** C9: when exactly one road lies within tolerance of the point, or no
    heading is given, [best_road_at] returns the first road found at the
    point whatever [drivable] is and whether or not the road owns a
    drivable lane: the drivable filter is applied only in the scoring
    loop. *)
Theorem best_road_at_first_unfiltered
    (m : Map) (point : Point) (heading : option Q) (drivable : bool)
    (goal : option Goal) (road : Road) (rest : list Road) :
  roads_at m point false None = road :: rest ->
  rest = [] \/ heading = None ->
  best_road_at m point heading drivable goal = Some road.
Proof.
  intros Hroads Hcase. unfold best_road_at. rewrite Hroads. cbn [length].
  destruct Hcase as [-> | ->].
  - destruct heading; reflexivity.
  - reflexivity.
Qed.

(** In the scoring loop the filter is applied: with a heading and several
    roads at the point, a road returned under [drivable] owns a drivable
    lane. *)
Lemma best_road_at_loop_drivable
    (m : Map) (point : Point) (h : Q) (goal : option Goal) (road : Road) :
  (2 <= length (roads_at m point false None))%nat ->
  best_road_at m point (Some h) true goal = Some road ->
  road_drivable road = true.
Proof.
  intros Htwo. unfold best_road_at.
  destruct (roads_at m point false None) as [|r1 [|r2 l]];
    cbn [length] in Htwo; try lia.
  cbn [length Nat.eqb].
  set (P := fun st : option Road * efloat =>
              forall b, fst st = Some b -> road_drivable b = true).
  assert (HP : P (fold_left (best_road_step m point (normalise_angle h) true goal)
                            (r1 :: r2 :: l) (None, Inf))).
  { apply fold_left_preserves; [|intros b; discriminate].
    intros [best diff] r Hst. unfold best_road_step. cbn [andb].
    destruct (road_drivable r) eqn:Er; cbn [negb]; [|exact Hst].
    assert (Hr : P (Some r, Fin (heading_diff m point (normalise_angle h) r)))
      by (intros b [= <-]; exact Er).
    destruct goal as [g|], best as [b|];
      repeat match goal with |- context [if ?c then _ else _] => destruct c end;
      assumption. }
  intros E. now apply HP.
Qed.

Lemma best_road_loop_goal (m : Map) (point : Point) (oh : Q) (drivable : bool)
    (g : Goal) (l : list Road) :
  forall st : option Road * efloat,
    (fst st = None -> snd st = Inf) ->
    fst (fold_left (best_road_step m point oh drivable (Some g)) l st)
    = fold_left (goal_fold_step g) (List.filter (accepted drivable) l) (fst st).
Proof.
  induction l as [|road l IH]; intros [best best_diff] Hinv; [reflexivity|].
  cbn [fold_left List.filter]. rewrite IH.
  - unfold accepted at 2, best_road_step.
    destruct (drivable && negb (road_drivable road)); cbn [negb fst];
      [reflexivity|].
    cbn [fold_left]. f_equal.
    destruct best as [b|]; cbn [goal_fold_step].
    + now destruct (Qltb _ _).
    + cbn in Hinv. now rewrite (Hinv eq_refl).
  - unfold best_road_step.
    destruct (drivable && negb (road_drivable road)); [exact Hinv|].
    destruct best as [b|].
    + destruct (Qltb _ _); cbn; intros; discriminate.
    + cbn in Hinv. rewrite (Hinv eq_refl). cbn. intros; discriminate.
Qed.

Lemma filter_length_le {A} (f : A -> bool) (l : list A) :
  (length (List.filter f l) <= length l)%nat.
Proof.
  induction l as [|a l IH]; cbn; [lia|]. destruct (f a); cbn; lia.
Qed.

(** C6: with a goal and a heading, and at least two drivable roads at the
    point, [best_road_at] is the left fold, in road insertion order, over
    the accepted candidates: the first becomes the running best and a
    later one replaces it iff its midline is strictly closer to the goal
    than the midline of the best held at that moment. *)
Theorem best_road_at_goal_is_left_fold
    (m : Map) (point : Point) (h : Q) (drivable : bool) (g : Goal) :
  (2 <= length (List.filter road_drivable (roads_at m point false None)))%nat ->
  best_road_at m point (Some h) drivable (Some g)
  = goal_left_fold g
      (List.filter (accepted drivable) (roads_at m point false None)).
Proof.
  intros Htwo. unfold best_road_at, goal_left_fold.
  pose proof (filter_length_le road_drivable (roads_at m point false None)) as Hle.
  destruct (roads_at m point false None) as [|r1 [|r2 l]] eqn:E;
    cbn [length] in *; try lia.
  cbn [Nat.eqb].
  now rewrite best_road_loop_goal.
Qed.

(** ** [best_lane_at] *)

Lemma fold_sections {B} (f : B -> Lane -> B) (lss : list LaneSection) :
  forall b : B,
    fold_left (fun b ls => fold_left f (all_lanes ls) b) lss b
    = fold_left f (flat_map all_lanes lss) b.
Proof.
  induction lss as [|ls lss IH]; intros b; cbn [fold_left flat_map];
    [reflexivity|].
  now rewrite fold_left_app, IH.
Qed.

Lemma best_lane_step_skip point heading d md oa best lane :
  eligible_lane point d md lane = false ->
  best_lane_step point heading d md oa best lane = best.
Proof.
  unfold eligible_lane, best_lane_step.
  destruct (lane_boundary lane) as [b|]; [|reflexivity].
  destruct (negb (lane_id lane =? 0) && (negb d || is_driving lane));
    cbn [andb]; [|reflexivity].
  now intros ->.
Qed.

Lemma best_lane_step_take point heading d md oa best lane :
  eligible_lane point d md lane = true ->
  best_lane_step point heading d md oa best lane
  = match best with
    | None => Some (lane_score point heading oa lane, lane)
    | Some (score, _) =>
        if Qltb (lane_score point heading oa lane) score
        then Some (lane_score point heading oa lane, lane)
        else best
    end.
Proof.
  unfold eligible_lane, best_lane_step, lane_score.
  destruct (lane_boundary lane) as [b|]; [|discriminate].
  destruct (negb (lane_id lane =? 0) && (negb d || is_driving lane));
    cbn [andb]; [|discriminate].
  now intros ->.
Qed.

Lemma best_lane_loop point heading d md oa (l : list Lane) :
  least_of point heading d md oa l
           (fold_left (best_lane_step point heading d md oa) l None).
Proof.
  induction l as [|lane l IH] using rev_ind; [reflexivity|].
  rewrite fold_left_app. cbn [fold_left].
  set (best := fold_left _ l None) in *.
  unfold least_of in *. rewrite List.filter_app. cbn [List.filter].
  destruct (eligible_lane point d md lane) eqn:E.
  - rewrite (best_lane_step_take _ _ _ _ _ _ _ E).
    destruct best as [[score held]|].
    + destruct IH as (Hs & Hin & Hmin).
      destruct (Qltb (lane_score point heading oa lane) score) eqn:Hlt.
      * split; [reflexivity|]. split.
        { apply in_or_app. right. now left. }
        intros lane' Hin'. apply in_app_or in Hin'.
        destruct Hin' as [Hin'|[<-|[]]]; [|apply Qle_refl].
        apply Qltb_lt in Hlt. apply Qlt_le_weak.
        eapply Qlt_le_trans; [exact Hlt|]. now apply Hmin.
      * split; [exact Hs|]. split.
        { apply in_or_app. now left. }
        intros lane' Hin'. apply in_app_or in Hin'.
        destruct Hin' as [Hin'|[<-|[]]]; [now apply Hmin|].
        now apply Qltb_ge in Hlt.
    + rewrite IH. cbn [app]. split; [reflexivity|]. split; [now left|].
      intros lane' [<-|[]]. apply Qle_refl.
  - rewrite (best_lane_step_skip _ _ _ _ _ _ _ E), app_nil_r. exact IH.
Qed.

Lemma lane_score_plain_sum (road : Road) (point : Point)
    (heading : option Q) (lane : Lane) :
  lane_score point heading (road_angle road point) lane
  = plain_sum road point heading lane.
Proof.
  unfold lane_score, plain_sum, lane_angle_diff, angle_difference,
    lane_direction, road_tangent, road_angle.
  destruct (lane_boundary lane); [|reflexivity].
  now destruct heading.
Qed.

(** C7: [best_lane_at] resolves the road with [best_road_at], to which it
    forwards the goal; it returns none when no road is found or the road
    has no lane that has a boundary, is not the center lane (id 0), is
    drivable (under [drivable_only]) and is within [max_distance];
    otherwise it returns one of these lanes whose plain sum of angle
    difference (radians) and boundary distance (map units), unweighted
    and as floats add the two, no other of them undercuts. *)
Theorem best_lane_at_least_sum
    (m : Map) (point : Point) (heading : option Q) (drivable_only : bool)
    (max_distance : option Q) (goal : option Goal) :
  match best_road_at m point heading true goal with
  | None => best_lane_at m point heading drivable_only max_distance goal = None
  | Some road =>
      let candidates :=
        lane_candidates road point drivable_only
                        (default LANE_PRECISION_ERROR max_distance) in
      let sum := plain_sum road point heading in
      match best_lane_at m point heading drivable_only max_distance goal with
      | None => candidates = []
      | Some lane =>
          In lane candidates
          /\ forall lane', In lane' candidates -> (sum lane <= sum lane')%Q
      end
  end.
Proof.
  unfold best_lane_at.
  destruct (best_road_at m point heading true goal) as [road|]; [|reflexivity].
  cbv zeta. rewrite fold_sections.
  pose proof (best_lane_loop point heading drivable_only
                (default LANE_PRECISION_ERROR max_distance)
                (road_angle road point) (road_lanes road)) as Hloop.
  unfold road_lanes in Hloop.
  destruct (fold_left _ _ None) as [[score lane]|]; unfold least_of in Hloop.
  - destruct Hloop as (Hs & Hin & Hmin). split; [exact Hin|].
    intros lane' Hin'. rewrite <- !lane_score_plain_sum, <- Hs.
    now apply Hmin.
  - exact Hloop.
Qed.

(** ** [road_in_roundabout] and [in_roundabout] *)

Lemma in_group_not_ValueError e g : in_group e g <> Raise ValueError.
Proof. destruct e; discriminate. Qed.

Lemma and_then_cases (a b r : option (result bool)) :
  and_then a b = r -> a = r \/ b = r.
Proof.
  unfold and_then. destruct a as [[[|]|]|]; intros <-; auto.
Qed.

Lemma road_in_roundabout_not_ValueError (depth : nat) (m : Map) :
  forall road, road_in_roundabout depth m road <> Some (Raise ValueError).
Proof.
  induction depth as [|depth IH]; intros road; [discriminate|].
  cbn [road_in_roundabout].
  destruct (link_predecessor road) as [pred|]; [|discriminate].
  destruct (link_successor road) as [succ|]; [|discriminate].
  destruct (junction_of m road) as [junction|].
  - destruct (is_roundabout_group (junction_group junction)); [|discriminate].
    destruct (element m pred), (element m succ); intros E;
      apply and_then_cases in E; destruct E as [E|E];
      try (now apply IH in E); try discriminate.
  - destruct (element m pred), (element m succ); discriminate.
Qed.

Lemma and_then_mono (a b a' b' : option (result bool)) (r : result bool) :
  (forall x, a = Some x -> a' = Some x) ->
  (forall x, b = Some x -> b' = Some x) ->
  and_then a b = Some r -> and_then a' b' = Some r.
Proof.
  intros Ha Hb. unfold and_then.
  destruct a as [[[|]|e]|]; intros E; try discriminate.
  - rewrite (Ha _ eq_refl). auto.
  - rewrite (Ha _ eq_refl). exact E.
  - rewrite (Ha _ eq_refl). exact E.
Qed.

Lemma and_then_returns (a b : result bool) :
  exists r, and_then (Some a) (Some b) = Some r.
Proof. destruct a as [[|]|e]; cbn; eauto. Qed.

(** A call that returns within [depth] nested calls returns the same
    with one more. *)
Lemma road_in_roundabout_S (depth : nat) (m : Map) :
  forall road r,
    road_in_roundabout depth m road = Some r ->
    road_in_roundabout (S depth) m road = Some r.
Proof.
  induction depth as [|depth IH]; intros road r E; [discriminate|].
  remember (S depth) as d eqn:Hd.
  cbn [road_in_roundabout]. rewrite Hd in E. cbn [road_in_roundabout] in E.
  destruct (link_predecessor road) as [pred|]; [|exact E].
  destruct (link_successor road) as [succ|]; [|exact E].
  destruct (junction_of m road) as [junction|]; [|exact E].
  destruct (is_roundabout_group (junction_group junction)); [|exact E].
  destruct (element m pred), (element m succ);
    try exact E; revert E; apply and_then_mono; auto.
Qed.

Lemma road_in_roundabout_le (m : Map) (road : Road) (r : result bool)
    (depth depth' : nat) :
  (depth <= depth')%nat ->
  road_in_roundabout depth m road = Some r ->
  road_in_roundabout depth' m road = Some r.
Proof.
  induction 1 as [|depth' _ IH]; [auto|].
  intros E. now apply road_in_roundabout_S, IH.
Qed.

(** A road that is not in a junction of a roundabout group is answered
    by the first call, whatever the links of the network are. *)
Lemma road_in_roundabout_direct (depth : nat) (m : Map) (road : Road) :
  match junction_of m road with
  | Some junction => is_roundabout_group (junction_group junction) = false
  | None => True
  end ->
  exists r, road_in_roundabout (S depth) m road = Some r.
Proof.
  intros Hj. cbn [road_in_roundabout].
  destruct (link_predecessor road) as [pred|]; [|eauto].
  destruct (link_successor road) as [succ|]; [|eauto].
  destruct (junction_of m road) as [junction|].
  - rewrite Hj. eauto.
  - destruct (element m pred), (element m succ); eauto.
Qed.

Lemma road_in_roundabout_returns (m : Map) (rank : Road -> nat) :
  (forall road callee, recursive_call m road callee ->
                       (rank callee < rank road)%nat) ->
  forall depth road,
    (rank road < depth)%nat ->
    exists r, road_in_roundabout depth m road = Some r.
Proof.
  intros Hrank. induction depth as [|depth IH]; intros road Hlt; [lia|].
  destruct (junction_of m road) as [junction|] eqn:Ej.
  2: { apply road_in_roundabout_direct. now rewrite Ej. }
  destruct (is_roundabout_group (junction_group junction)) eqn:Eg.
  2: { apply road_in_roundabout_direct. now rewrite Ej. }
  cbn [road_in_roundabout].
  destruct (link_predecessor road) as [pred|] eqn:Ep; [|eauto].
  destruct (link_successor road) as [succ|] eqn:Es; [|eauto].
  rewrite Ej, Eg.
  assert (Hcall : forall callee,
             element m pred = IsRoad callee \/ element m succ = IsRoad callee ->
             exists r, road_in_roundabout depth m callee = Some r).
  { intros callee Hc. apply IH.
    assert (rank callee < rank road)%nat; [|lia].
    apply Hrank. exists pred, succ, junction. auto. }
  destruct (element m pred) as [p|pj|] eqn:Epe,
           (element m succ) as [s|sj|] eqn:Ese;
    try apply and_then_returns.
  - destruct (Hcall p) as [rp ->]; [auto|].
    destruct (Hcall s) as [rs ->]; [auto|]. apply and_then_returns.
  - destruct (Hcall p) as [rp ->]; [auto|]. apply and_then_returns.
  - destruct (Hcall s) as [rs ->]; [auto|]. apply and_then_returns.
Qed.

(** C1, as the code has it: [road_in_roundabout] has no depth bound and
    no memo of visited roads; it returns on every network in which the
    links it follows, those out of roads of roundabout junctions, admit
    a decreasing rank.  Links of other roads are never followed, so
    cycles among roads that are not in a roundabout junction are
    harmless. *)
Theorem road_in_roundabout_terminates (m : Map) (rank : Road -> nat) :
  (forall road callee, recursive_call m road callee ->
                       (rank callee < rank road)%nat) ->
  forall road, exists r, forall depth,
    (rank road < depth)%nat -> road_in_roundabout depth m road = Some r.
Proof.
  intros Hrank road.
  destruct (road_in_roundabout_returns m rank Hrank (S (rank road)) road)
    as [r Hr]; [lia|].
  exists r. intros depth Hlt.
  apply (road_in_roundabout_le m road r (S (rank road))); [lia | exact Hr].
Qed.

(** C10: [in_roundabout] raises [ValueError] when [best_road_at] finds no
    road at the point, and only then; it returns neither false nor
    none there. *)
Theorem in_roundabout_no_road_ValueError
    (depth : nat) (m : Map) (point : Point) (heading : option Q) :
  in_roundabout depth m point heading = Some (Raise ValueError)
  <-> best_road_at m point heading true None = None.
Proof.
  unfold in_roundabout.
  destruct (best_road_at m point heading true None) as [road|].
  - split; [|discriminate].
    intros E. now apply road_in_roundabout_not_ValueError in E.
  - split; reflexivity.
Qed.
End MapProperties.

Section LanesAtProperties.
Context `{GeometryOps}.

(** ** [lanes_at] *)

Lemma Lane_eqb_sym (a b : Lane) : Lane_eqb a b = Lane_eqb b a.
Proof.
  unfold Lane_eqb.
  now rewrite (Z.eqb_sym (lane_road_id a)), (Z.eqb_sym (lane_id a)),
    (Z.eqb_sym (lane_section_idx a)).
Qed.

Lemma lane_in_app (x : Lane) (c d : list Lane) :
  lane_in x (c ++ d) = lane_in x c || lane_in x d.
Proof. unfold lane_in. apply existsb_app. Qed.

Lemma distinct_lanes_snoc (c : list Lane) (x : Lane) :
  distinct_lanes c = true -> lane_in x c = false ->
  distinct_lanes (c ++ [x]) = true.
Proof.
  induction c as [|y t IH]; cbn [distinct_lanes app lane_in existsb];
    [reflexivity|].
  intros Hd Hx.
  apply andb_true_iff in Hd as [Hy Ht].
  apply orb_false_iff in Hx as [Hxy Hxt].
  apply negb_true_iff in Hy.
  rewrite lane_in_app, Hy, IH by assumption.
  cbn [lane_in existsb]. now rewrite (Lane_eqb_sym y x), Hxy.
Qed.

Lemma lanes_at_lane_distinct point d md (c : list Lane) (lane : Lane) :
  distinct_lanes c = true ->
  distinct_lanes (lanes_at_lane point d md c lane) = true.
Proof.
  intros Hc. unfold lanes_at_lane.
  destruct (lane_boundary lane) as [b|]; [|exact Hc].
  destruct (lane_in lane c) eqn:E.
  - now rewrite !andb_false_r.
  - destruct (_ && _); [|exact Hc]. now apply distinct_lanes_snoc.
Qed.

Lemma lanes_at_no_repeat (m : Map) (point : Point) (drivable_only : bool)
    (max_distance : option Q) :
  distinct_lanes (lanes_at m point drivable_only max_distance) = true.
Proof.
  unfold lanes_at.
  apply (fold_left_preserves (fun c => distinct_lanes c = true));
    [|reflexivity].
  intros c road Hc.
  apply (fold_left_preserves (fun c => distinct_lanes c = true));
    [|exact Hc].
  intros c' ls Hc'.
  apply (fold_left_preserves (fun c => distinct_lanes c = true));
    [|exact Hc'].
  intros c'' lane Hc''. now apply lanes_at_lane_distinct.
Qed.

(** X5: [lanes_at] never returns the same lane (road id, lane id,
    section index) twice. *)
Lemma lanes_at_distinct (m : Map) (point : Point) (drivable_only : bool)
    (max_distance : option Q) :
  distinct_lanes (lanes_at m point drivable_only max_distance) = true.
Proof. exact (lanes_at_no_repeat m point drivable_only max_distance). Qed.

(** [lanes_at] tests the boundary of a lane, its drivability and whether
    it is already held, and not its id: a lane is added whatever its id. *)
Lemma lanes_at_lane_ignores_id point d md (c : list Lane) (lane : Lane) b :
  lane_boundary lane = Some b ->
  is_empty b = false ->
  Qltb (distance b point) md = true ->
  (negb d || is_driving lane) = true ->
  lane_in lane c = false ->
  lanes_at_lane point d md c lane = c ++ [lane].
Proof.
  intros Hb He Hd Hdr Hin. unfold lanes_at_lane.
  now rewrite Hb, He, Hd, Hdr, Hin.
Qed.
End LanesAtProperties.

(** Unfolds the plumbing of method calls. *)
Ltac run_method := unfold bind, get_self, modify, ret, raise.

Section AgentProperties.
Context `{PlanningOps} `{FloatOps}.

(** ** [TrafficAgent] *)

Lemma next_action_exhausted (observation : Observation) (self : Agent)
    (ma : MacroAction) :
  _current_macro self = Some ma ->
  _macro_actions self = [] ->
  ma_done ma observation = true ->
  next_action observation self = (self, Ok stop).
Proof.
  intros Hcm Hq Hdone.
  unfold next_action. run_method.
  rewrite Hcm. cbn. rewrite Hcm, Hdone, Hq. reflexivity.
Qed.

(** C8, as the code has it: with an empty plan queue, every call of
    [next_action] at which the current macro action reports done returns
    the neutral command, zero acceleration and zero steering, and raises
    nothing; the agent stays as it is.  The agent keeps no mark of being
    exhausted: the macro action is asked again at every call. *)
Theorem next_action_exhausted_stops (observations : list Observation)
    (self : Agent) (ma : MacroAction) :
  _current_macro self = Some ma ->
  _macro_actions self = [] ->
  Forall (fun o => ma_done ma o = true) observations ->
  next_actions observations self
  = (self, map (fun _ => Ok stop) observations).
Proof.
  intros Hcm Hq Hall.
  induction Hall as [|o os Ho _ IH]; [reflexivity|].
  cbn [next_actions map].
  now rewrite (next_action_exhausted o self ma Hcm Hq Ho), IH.
Qed.

(** C3, as the code has it: when the planner returns no plan,
    [set_destination] raises the path-not-found [RuntimeError] and
    leaves the plan and the current macro action as they were.  [done]
    then answers as it did before the call: false while the plan is not
    empty; with an empty plan it raises the assertion failure when no
    macro action is set and otherwise reports whether the current macro
    action is done. *)
Theorem set_destination_no_path (observation : Observation)
    (goal : option Goal) (self : Agent) :
  snd (astar_search (agent_id self) (frame observation)
                    (goal_for_search goal self)
                    (scenario_map observation) false) = [] ->
  snd (set_destination observation goal self) = Raise RuntimeError
  /\ _macro_actions (fst (set_destination observation goal self))
     = _macro_actions self
  /\ _current_macro (fst (set_destination observation goal self))
     = _current_macro self
  /\ forall observation',
       snd (done observation' (fst (set_destination observation goal self)))
       = match _macro_actions self, _current_macro self with
         | _ :: _, _ => Ok false
         | [], None => Raise AssertionError
         | [], Some ma => Ok (ma_done ma observation')
         end.
Proof.
  intros Hsearch.
  assert (E : set_destination observation goal self
              = (match goal with
                 | Some g => set_goal (Some g) self
                 | None => self
                 end, Raise RuntimeError)).
  { unfold set_destination. run_method.
    destruct goal as [g|]; cbn in *;
      destruct (astar_search _ _ _ _ _) as [cost actions];
      cbn in Hsearch; now subst actions. }
  rewrite E. cbn [fst snd].
  assert (Hq : _macro_actions (match goal with
                               | Some g => set_goal (Some g) self
                               | None => self
                               end) = _macro_actions self)
    by now destruct goal.
  assert (Hc : _current_macro (match goal with
                               | Some g => set_goal (Some g) self
                               | None => self
                               end) = _current_macro self)
    by now destruct goal.
  repeat split; try assumption.
  intros observation'.
  unfold done, MacroAgent_done. run_method.
  rewrite Hq. destruct (_macro_actions self); cbn; [|reflexivity].
  rewrite Hc. now destruct (_current_macro self).
Qed.

(** ** [MacroAgent.update_macro_action] *)

Lemma issubclass_meta_refl (a : metaclass) : issubclass_meta a a = true.
Proof. now destruct a. Qed.

(** The test that guards the narrowing looks at the metaclass of the
    requested class only: every class declared like [Exit] passes it,
    whether or not it derives from [Exit]. *)
Lemma narrows_same_metaclass (cls : MacroActionClass) (args : list kwargs) :
  cls_type cls = cls_type Exit ->
  narrows cls args = (1 <? length args)%nat.
Proof.
  intros E. unfold narrows, isinstance_type_Exit.
  now rewrite E, issubclass_meta_refl, andb_true_r.
Qed.

Lemma install_loop_keeps (cls : MacroActionClass) fr sm (args : list kwargs) :
  forall self,
    let self' :=
      fold_left
        (fun self kw =>
           set_current_macro
             (Some (cls_new cls (agent_id self) fr sm false kw)) self)
        args self in
    agent_id self' = agent_id self
    /\ _goal self' = _goal self
    /\ _macro_actions self' = _macro_actions self.
Proof.
  induction args as [|kw args IH]; intros self; cbn [fold_left]; [auto|].
  specialize (IH (set_current_macro
                    (Some (cls_new cls (agent_id self) fr sm false kw)) self)).
  cbv zeta in *. destruct IH as (-> & -> & ->). auto.
Qed.

Lemma update_macro_action_loop (cls : MacroActionClass)
    (observation : Observation) (self : Agent) (state : AgentState)
    (goal : Goal) (args : list kwargs) (last : kwargs) :
  frame observation !! agent_id self = Some state ->
  _goal self = Some goal ->
  get_possible_args cls state (scenario_map observation) (center goal)
  = args ++ [last] ->
  narrows cls (args ++ [last]) = false ->
  update_macro_action cls observation self
  = (set_current_macro
       (Some (cls_new cls (agent_id self) (frame observation)
                      (scenario_map observation) false last))
       self,
     Ok tt).
Proof.
  intros Hst Hg Hargs Hn.
  unfold update_macro_action. run_method.
  rewrite Hst, Hg, Hargs, Hn. f_equal.
  rewrite fold_left_app. cbn [fold_left].
  destruct (install_loop_keeps cls (frame observation)
              (scenario_map observation) args self) as (Hid & Hgoal & Hq).
  cbv zeta in *. unfold set_current_macro at 1.
  rewrite Hid, Hgoal, Hq. reflexivity.
Qed.

(** C5: when no narrowing takes place, [update_macro_action] returns and
    the current macro action of the agent is then the one built from the
    last parameter set that [get_possible_args] returned: each iteration
    of the loop overwrites what the one before installed. *)
Theorem update_macro_action_installs_last
    (cls : MacroActionClass) (observation : Observation) (self : Agent)
    (state : AgentState) (goal : Goal) (args : list kwargs) (last : kwargs) :
  frame observation !! agent_id self = Some state ->
  _goal self = Some goal ->
  get_possible_args cls state (scenario_map observation) (center goal)
  = args ++ [last] ->
  narrows cls (args ++ [last]) = false ->
  snd (update_macro_action cls observation self) = Ok tt
  /\ _current_macro (fst (update_macro_action cls observation self))
     = Some (cls_new cls (agent_id self) (frame observation)
                     (scenario_map observation) false last).
Proof.
  intros Hst Hg Hargs Hn.
  rewrite (update_macro_action_loop cls observation self state goal args last
             Hst Hg Hargs Hn).
  split; reflexivity.
Qed.
End AgentProperties.

(** * Further properties of the road network *)

Lemma fold_left_preserves_in {A B} (P : A -> Prop) (f : A -> B -> A)
    (l : list B) :
  (forall a x, In x l -> P a -> P (f a x)) ->
  forall a, P a -> P (fold_left f l a).
Proof.
  induction l as [|x l IH]; intros Hf a Ha; cbn; [exact Ha|].
  apply IH.
  - intros a' y Hy. apply Hf. now right.
  - apply Hf; [now left | exact Ha].
Qed.

(** A loop ends in [P] when one of its iterations establishes [P] and
    every iteration keeps it. *)
Lemma fold_left_establishes {A B} (P : A -> Prop) (f : A -> B -> A)
    (l : list B) (x : B) :
  In x l ->
  (forall a, P (f a x)) ->
  (forall a y, P a -> P (f a y)) ->
  forall a, P (fold_left f l a).
Proof.
  intros Hin Hx Hkeep.
  induction l as [|y l IH]; intros a; [destruct Hin|].
  cbn. destruct Hin as [->|Hin].
  - apply fold_left_preserves; [exact Hkeep | apply Hx].
  - now apply IH.
Qed.

Lemma filter_twice {A} (f g : A -> bool) (l : list A) :
  List.filter f (List.filter g l) = List.filter (fun x => g x && f x) l.
Proof.
  induction l as [|x l IH]; cbn; [reflexivity|].
  destruct (g x); cbn; [destruct (f x)|]; now rewrite IH.
Qed.

Section RoadsAtProperties.
Context `{GeometryOps}.

(** X1: the [drivable] flag of [roads_at] only removes the roads without
    a drivable lane from the answer it gives without the flag; order is
    kept. *)
Theorem roads_at_drivable_filters (m : Map) (point : Point)
    (max_distance : option Q) :
  roads_at m point true max_distance
  = List.filter road_drivable (roads_at m point false max_distance).
Proof.
  unfold roads_at. rewrite filter_twice. apply List.filter_ext.
  intros road. destruct (road_boundary road); [|reflexivity].
  cbn [andb negb]. now rewrite negb_involutive, andb_true_r.
Qed.

(** X2: a smaller tolerance gives the roads of the larger tolerance that
    are within the smaller one: widening [max_distance] never loses a
    road. *)
Theorem roads_at_tolerance (m : Map) (point : Point) (drivable : bool)
    (d1 d2 : Q) :
  (d1 <= d2)%Q ->
  roads_at m point drivable (Some d1)
  = List.filter (road_within point d1) (roads_at m point drivable (Some d2)).
Proof.
  intros Hle. unfold roads_at. rewrite filter_twice. apply List.filter_ext.
  intros road. unfold road_within. cbn [default from_option id].
  destruct (road_boundary road) as [b|]; [|reflexivity].
  destruct (Qltb (distance b point) d1) eqn:E1; cbn [andb].
  - apply Qltb_lt in E1.
    assert (E2 : Qltb (distance b point) d2 = true)
      by (apply Qltb_lt; eapply Qlt_le_trans; eassumption).
    rewrite E2. cbn [andb]. now rewrite andb_true_r.
  - now rewrite andb_false_r.
Qed.

(** ** [lanes_at] *)

Lemma lanes_at_lane_cases point d md (c : list Lane) (lane : Lane) :
  lanes_at_lane point d md c lane = c
  \/ (lanes_at_lane point d md c lane = c ++ [lane]
      /\ lane_through point d md lane = true).
Proof.
  unfold lanes_at_lane, lane_through.
  destruct (lane_boundary lane) as [b|]; [|now left].
  destruct (negb (is_empty b) && Qltb (distance b point) md
            && (negb d || is_driving lane)); cbn [andb]; [|now left].
  destruct (negb (lane_in lane c)); auto.
Qed.

Lemma lanes_at_members (m : Map) (point : Point) (drivable_only : bool)
    (max_distance : option Q) (lane : Lane) :
  In lane (lanes_at m point drivable_only max_distance) ->
  lane_through point drivable_only
               (default LANE_PRECISION_ERROR max_distance) lane = true
  /\ lane_of_roads
       (roads_at m point false
                 (Some (default LANE_PRECISION_ERROR max_distance)))
       lane.
Proof.
  unfold lanes_at. cbv zeta.
  set (md := default LANE_PRECISION_ERROR max_distance).
  set (rs := roads_at m point false (Some md)).
  set (P := fun c : list Lane =>
              forall l, In l c ->
                        lane_through point drivable_only md l = true
                        /\ lane_of_roads rs l).
  assert (HP : P (fold_left
                    (fun candidates road =>
                       fold_left
                         (fun candidates lane_section =>
                            fold_left
                              (lanes_at_lane point drivable_only md)
                              (all_lanes lane_section) candidates)
                         (lane_sections road) candidates)
                    rs [])).
  { apply fold_left_preserves_in; [|intros l []].
    intros c road Hroad Hc.
    apply fold_left_preserves_in; [|exact Hc].
    intros c' ls Hls Hc'.
    apply fold_left_preserves_in; [|exact Hc'].
    intros c'' x Hx Hc'' l Hl.
    destruct (lanes_at_lane_cases point drivable_only md c'' x)
      as [E|[E Hthrough]]; rewrite E in Hl; [now apply Hc''|].
    apply in_app_or in Hl. destruct Hl as [Hl|[<-|[]]]; [now apply Hc''|].
    split; [exact Hthrough|]. now exists road, ls. }
  intros Hin. now apply HP.
Qed.

(** X3: every lane [lanes_at] returns has a boundary that is not empty
    and is within [max_distance] of the point, is drivable under
    [drivable_only], and is a lane of one of the roads [roads_at] finds
    at the point with the same tolerance. *)
Theorem lanes_at_sound (m : Map) (point : Point) (drivable_only : bool)
    (max_distance : option Q) (lane : Lane) :
  In lane (lanes_at m point drivable_only max_distance) ->
  lane_through point drivable_only
               (default LANE_PRECISION_ERROR max_distance) lane = true
  /\ lane_of_roads
       (roads_at m point false
                 (Some (default LANE_PRECISION_ERROR max_distance)))
       lane.
Proof. exact (lanes_at_members m point drivable_only max_distance lane). Qed.

Lemma lane_in_refl (lane : Lane) (c : list Lane) :
  In lane c -> lane_in lane c = true.
Proof.
  intros Hin. unfold lane_in. apply existsb_exists. exists lane.
  split; [exact Hin|]. unfold Lane_eqb. now rewrite !Z.eqb_refl.
Qed.

Lemma lanes_at_lane_keeps point d md (lane : Lane) (c : list Lane) (x : Lane) :
  lane_in lane c = true ->
  lane_in lane (lanes_at_lane point d md c x) = true.
Proof.
  intros Hc.
  destruct (lanes_at_lane_cases point d md c x) as [->|[-> _]];
    [exact Hc|].
  rewrite lane_in_app, Hc. reflexivity.
Qed.

Lemma lanes_at_lane_adds point d md (lane : Lane) (c : list Lane) :
  lane_through point d md lane = true ->
  lane_in lane (lanes_at_lane point d md c lane) = true.
Proof.
  unfold lane_through, lanes_at_lane.
  destruct (lane_boundary lane) as [b|]; [|discriminate].
  intros ->. cbn [andb].
  destruct (lane_in lane c) eqn:E; cbn [negb]; [exact E|].
  rewrite lane_in_app. apply orb_true_iff. right.
  apply lane_in_refl. now left.
Qed.

(** X4: [lanes_at] misses no lane: every lane of a road found at the
    point that has a non-empty boundary within [max_distance], and is
    drivable under [drivable_only], is in the answer, itself or as an
    entry with the same road id, lane id and section index. *)
Theorem lanes_at_complete (m : Map) (point : Point) (drivable_only : bool)
    (max_distance : option Q) (lane : Lane) :
  lane_of_roads
    (roads_at m point false
              (Some (default LANE_PRECISION_ERROR max_distance)))
    lane ->
  lane_through point drivable_only
               (default LANE_PRECISION_ERROR max_distance) lane = true ->
  lane_in lane (lanes_at m point drivable_only max_distance) = true.
Proof.
  intros (road & ls & Hroad & Hls & Hlane) Hthrough.
  unfold lanes_at. cbv zeta.
  set (md := default LANE_PRECISION_ERROR max_distance) in *.
  set (P := fun c : list Lane => lane_in lane c = true).
  assert (Hstep : forall c x, P c -> P (lanes_at_lane point drivable_only md c x))
    by (intros c x; apply lanes_at_lane_keeps).
  assert (Hsec : forall c s,
             P c -> P (fold_left (lanes_at_lane point drivable_only md)
                                 (all_lanes s) c))
    by (intros c s; apply fold_left_preserves; exact Hstep).
  assert (Hrd : forall c r,
             P c ->
             P (fold_left
                  (fun candidates lane_section =>
                     fold_left (lanes_at_lane point drivable_only md)
                               (all_lanes lane_section) candidates)
                  (lane_sections r) c))
    by (intros c r; apply fold_left_preserves; exact Hsec).
  apply (fold_left_establishes P _ _ road Hroad); [|exact Hrd].
  intros c.
  apply (fold_left_establishes P _ _ ls Hls); [|exact Hsec].
  intros c'.
  apply (fold_left_establishes P _ _ lane Hlane); [|exact Hstep].
  intros c''. now apply lanes_at_lane_adds.
Qed.


(** ** [junction_at] *)

(** X6: [junction_at] returns the first junction, in insertion order,
    whose boundary is within the junction precision of the point, and
    none exactly when no junction of the map is. *)
Theorem junction_at_first (m : Map) (point : Point) :
  match junction_at m point with
  | Some junction =>
      exists before after,
        junctions m = before ++ junction :: after
        /\ junction_near point junction = true
        /\ Forall (fun j => junction_near point j = false) before
  | None => Forall (fun j => junction_near point j = false) (junctions m)
  end.
Proof.
  unfold junction_at.
  induction (junctions m) as [|j l IH]; cbn [List.find]; [constructor|].
  destruct (junction_near point j) eqn:E.
  - exists [], l. auto.
  - destruct (List.find (junction_near point) l) as [found|].
    + destruct IH as (before & after & -> & Hnear & Hbefore).
      exists (j :: before), after. auto.
    + now constructor.
Qed.
End RoadsAtProperties.

Section AngleQueriesProperties.
Context `{GeometryOps}.

(** ** [roads_within_angle] and [lanes_within_angle] *)

Lemma roads_within_angle_no_threshold (m : Map) (point : Point)
    (heading threshold : Q) (max_distance : option Q) :
  (threshold <= 0)%Q ->
  roads_within_angle m point heading threshold max_distance = [].
Proof.
  intros Hle. unfold roads_within_angle.
  apply Qle_bool_iff in Hle. now rewrite Hle.
Qed.

(** X7: with a threshold that is zero or negative, [roads_within_angle]
    and [lanes_within_angle] return nothing, whatever lies at the
    point. *)
Theorem within_angle_no_threshold (m : Map) (point : Point)
    (heading threshold : Q) (drivable_only : bool) (max_distance : option Q) :
  (threshold <= 0)%Q ->
  roads_within_angle m point heading threshold max_distance = []
  /\ lanes_within_angle m point heading threshold drivable_only max_distance
     = [].
Proof.
  intros Hle. split; [now apply roads_within_angle_no_threshold|].
  unfold lanes_within_angle.
  now rewrite roads_within_angle_no_threshold.
Qed.

(** X8: when exactly one road lies at the point, [roads_within_angle]
    with a positive threshold returns that road, whatever the heading and
    however far the road's direction is from it. *)
Theorem roads_within_angle_single (m : Map) (point : Point)
    (heading threshold : Q) (max_distance : option Q) (road : Road) :
  (0 < threshold)%Q ->
  roads_at m point false
           (Some (default ROAD_PRECISION_ERROR max_distance)) = [road] ->
  roads_within_angle m point heading threshold max_distance = [road].
Proof.
  intros Hpos Hroads. unfold roads_within_angle.
  destruct (Qle_bool threshold 0) eqn:E.
  - apply Qle_bool_iff in E. exfalso. eapply Qlt_not_le; eassumption.
  - now rewrite Hroads.
Qed.





Lemma lanes_within_angle_lane_cases point heading threshold d md road
    (ret : list Lane) (lane : Lane) :
  lanes_within_angle_lane point heading threshold d md road ret lane = ret
  \/ (lanes_within_angle_lane point heading threshold d md road ret lane
      = ret ++ [lane]
      /\ lane_id lane <> 0
      /\ (d = true -> is_driving lane = true)
      /\ (exists b, lane_boundary lane = Some b
                    /\ (distance b point < md)%Q)
      /\ (Qabs (normalise_angle (heading - lane_angle road point lane))
          < threshold)%Q).
Proof.
  unfold lanes_within_angle_lane.
  destruct (lane_boundary lane) as [b|]; [|now left].
  destruct (Qltb (distance b point) md) eqn:E1; cbn [andb]; [|now left].
  destruct (lane_id lane =? 0) eqn:E2; cbn [andb negb]; [now left|].
  destruct (negb d || is_driving lane) eqn:E3; cbn [andb]; [|now left].
  destruct (Qltb _ threshold) eqn:E4; [|now left].
  right. split; [reflexivity|].
  split; [now apply Z.eqb_neq|].
  split; [intros ->; exact E3|].
  split; [exists b; split; [reflexivity | now apply Qltb_lt]|].
  now apply Qltb_lt.
Qed.

(** X10: [lanes_within_angle] never returns the center lane (id 0); every
    lane it returns has a boundary within [max_distance] of the point,
    is drivable under [drivable_only], belongs to a road returned by
    [roads_within_angle], and its direction, the road's turned by pi for
    a positive lane id, is within the threshold of the heading. *)
Theorem lanes_within_angle_sound (m : Map) (point : Point)
    (heading threshold : Q) (drivable_only : bool)
    (max_distance : option Q) (lane : Lane) :
  In lane (lanes_within_angle m point heading threshold drivable_only
                              max_distance) ->
  lane_id lane <> 0
  /\ (drivable_only = true -> is_driving lane = true)
  /\ (exists b, lane_boundary lane = Some b
                /\ (distance b point
                    < default LANE_PRECISION_ERROR max_distance)%Q)
  /\ exists road ls,
       In road (roads_within_angle
                  m point heading threshold
                  (Some (default LANE_PRECISION_ERROR max_distance)))
       /\ In ls (lane_sections road) /\ In lane (all_lanes ls)
       /\ (Qabs (normalise_angle (heading - lane_angle road point lane))
           < threshold)%Q.
Proof.
  unfold lanes_within_angle. cbv zeta.
  set (md := default LANE_PRECISION_ERROR max_distance).
  set (rs := roads_within_angle m point heading threshold (Some md)).
  set (P := fun ret : list Lane =>
              forall l, In l ret ->
                lane_id l <> 0
                /\ (drivable_only = true -> is_driving l = true)
                /\ (exists b, lane_boundary l = Some b
                              /\ (distance b point < md)%Q)
                /\ exists road ls,
                     In road rs /\ In ls (lane_sections road)
                     /\ In l (all_lanes ls)
                     /\ (Qabs (normalise_angle
                                 (heading - lane_angle road point l))
                         < threshold)%Q).
  assert (HP : P (fold_left
                    (fun ret road =>
                       fold_left
                         (fun ret lane_section =>
                            fold_left
                              (lanes_within_angle_lane
                                 point heading threshold drivable_only md road)
                              (all_lanes lane_section) ret)
                         (lane_sections road) ret)
                    rs [])).
  { apply fold_left_preserves_in; [|intros l []].
    intros c road Hroad Hc.
    apply fold_left_preserves_in; [|exact Hc].
    intros c' ls Hls Hc'.
    apply fold_left_preserves_in; [|exact Hc'].
    intros c'' x Hx Hc'' l Hl.
    destruct (lanes_within_angle_lane_cases
                point heading threshold drivable_only md road c'' x)
      as [E|(E & Hid & Hdr & Hb & Hang)]; rewrite E in Hl;
      [now apply Hc''|].
    apply in_app_or in Hl. destruct Hl as [Hl|[<-|[]]]; [now apply Hc''|].
    repeat (split; [assumption|]). now exists road, ls. }
  intros Hin. now apply HP.
Qed.

(** ** [get_adjacent_lanes] and [adjacent_lanes_at] *)

Lemma is_adjacent_true (current_lane lane : Lane) (sd d : bool) :
  is_adjacent current_lane sd d lane = true ->
  lane_id lane <> lane_id current_lane
  /\ lane_id lane <> 0
  /\ (sd = true -> Z.sgn (lane_id lane) = Z.sgn (lane_id current_lane))
  /\ (d = true -> is_driving lane = true).
Proof.
  unfold is_adjacent. intros E.
  apply andb_true_iff in E as [E E3]. apply andb_true_iff in E as [E1 E2].
  apply negb_true_iff, Z.eqb_neq in E1. apply negb_true_iff, Z.eqb_neq in E2.
  split; [exact E1|]. split; [exact E2|].
  destruct sd, d; cbn in E3.
  - apply andb_true_iff in E3 as [Es Ed]. apply Z.eqb_eq in Es. auto.
  - apply Z.eqb_eq in E3. split; [auto | discriminate].
  - split; [discriminate | auto].
  - split; discriminate.
Qed.

Lemma get_adjacent_lanes_in (m : Map) (current_lane : Lane) (sd d : bool)
    (adjacents : list Lane) (lane : Lane) :
  get_adjacent_lanes m current_lane sd d = Ok adjacents ->
  In lane adjacents ->
  is_adjacent current_lane sd d lane = true
  /\ exists ls, lane_section_of m current_lane = Some ls
                /\ In lane (all_lanes ls).
Proof.
  unfold get_adjacent_lanes.
  destruct (lane_section_of m current_lane) as [ls|]; [|discriminate].
  intros [= <-] Hin. apply filter_In in Hin as [Hin Hadj].
  split; [exact Hadj | now exists ls].
Qed.

(** X11: the lanes [get_adjacent_lanes] returns are lanes of the section
    of the given lane; none of them has the id of the given lane or the
    id 0; under [same_direction] each has an id of the same sign as the
    given lane, under [drivable_only] each is drivable. *)
Theorem get_adjacent_lanes_sound (m : Map) (current_lane : Lane)
    (same_direction drivable_only : bool) (adjacents : list Lane)
    (lane : Lane) :
  get_adjacent_lanes m current_lane same_direction drivable_only
  = Ok adjacents ->
  In lane adjacents ->
  (exists ls, lane_section_of m current_lane = Some ls
              /\ In lane (all_lanes ls))
  /\ lane_id lane <> lane_id current_lane
  /\ lane_id lane <> 0
  /\ (same_direction = true ->
      Z.sgn (lane_id lane) = Z.sgn (lane_id current_lane))
  /\ (drivable_only = true -> is_driving lane = true).
Proof.
  intros E Hin.
  destruct (get_adjacent_lanes_in _ _ _ _ _ _ E Hin) as [Hadj Hls].
  split; [exact Hls|]. now apply is_adjacent_true.
Qed.

(** The center lane has no adjacent lane of the same direction: for
    a lane with id 0, [get_adjacent_lanes] with [same_direction] returns
    the empty list when it returns. *)
Theorem get_adjacent_lanes_center (m : Map) (current_lane : Lane)
    (drivable_only : bool) (adjacents : list Lane) :
  lane_id current_lane = 0 ->
  get_adjacent_lanes m current_lane true drivable_only = Ok adjacents ->
  adjacents = [].
Proof.
  intros Hid E.
  destruct adjacents as [|lane rest]; [reflexivity|]. exfalso.
  destruct (get_adjacent_lanes_in _ _ _ _ _ lane E (or_introl eq_refl))
    as [Hadj _].
  apply is_adjacent_true in Hadj as (_ & Hne & Hs & _).
  specialize (Hs eq_refl). rewrite Hid in Hs. cbn in Hs.
  apply Hne. now apply Z.sgn_null_iff.
Qed.
End AngleQueriesProperties.

Section BestRoadProperties.
Context `{GeometryOps}.

(** ** [best_road_at] *)

Lemma best_road_step_reject m point oh drivable goal st road :
  accepted drivable road = false ->
  best_road_step m point oh drivable goal st road = st.
Proof.
  unfold accepted, best_road_step. destruct st as [best diff].
  intros E. apply negb_false_iff in E. now rewrite E.
Qed.

Lemma best_road_step_held m point oh drivable goal st road :
  fst st <> None ->
  fst (best_road_step m point oh drivable goal st road) <> None.
Proof.
  unfold best_road_step. destruct st as [[b|] diff]; cbn [fst];
    [intros _ | congruence].
  destruct (drivable && negb (road_drivable road)); [discriminate|].
  destruct goal;
    repeat match goal with |- context [if ?c then _ else _] => destruct c end;
    discriminate.
Qed.

Lemma best_road_step_accept m point oh drivable goal st road :
  (fst st = None -> snd st = Inf) ->
  accepted drivable road = true ->
  fst (best_road_step m point oh drivable goal st road) <> None.
Proof.
  intros Hinv Hacc. destruct (fst st) eqn:E.
  - apply best_road_step_held. congruence.
  - unfold accepted in Hacc. apply negb_true_iff in Hacc.
    unfold best_road_step. destruct st as [best diff]. cbn in E, Hinv.
    subst best. rewrite (Hinv eq_refl), Hacc.
    destruct goal; discriminate.
Qed.

Lemma best_road_loop_held m point oh drivable goal (l : list Road) :
  forall st,
    fst st <> None ->
    fst (fold_left (best_road_step m point oh drivable goal) l st) <> None.
Proof.
  intros st Hst.
  apply (fold_left_preserves (fun st => fst st <> None)); [|exact Hst].
  intros a x. apply best_road_step_held.
Qed.

Lemma best_road_loop_none m point oh drivable goal (l : list Road) :
  fst (fold_left (best_road_step m point oh drivable goal) l (None, Inf))
  = None
  <-> Forall (fun r => accepted drivable r = false) l.
Proof.
  induction l as [|road l IH]; cbn [fold_left].
  - split; [constructor | reflexivity].
  - destruct (accepted drivable road) eqn:E.
    + split.
      * intros Hnone. exfalso. revert Hnone.
        apply best_road_loop_held, best_road_step_accept; auto.
      * intros Hall. inversion Hall; congruence.
    + rewrite best_road_step_reject by exact E. rewrite IH.
      split; [now constructor | now inversion 1].
Qed.

(** X14: [best_road_at] returns none in two cases only: no road lies at
    the point; or a heading is given, several roads lie at the point, and
    the scoring loop accepts none of them, which happens only under
    [drivable] when none of them owns a drivable lane. *)
Theorem best_road_at_none (m : Map) (point : Point) (heading : option Q)
    (drivable : bool) (goal : option Goal) :
  best_road_at m point heading drivable goal = None
  <-> roads_at m point false None = []
      \/ (heading <> None
          /\ (2 <= length (roads_at m point false None))%nat
          /\ drivable = true
          /\ Forall (fun r => road_drivable r = false)
                    (roads_at m point false None)).
Proof.
  unfold best_road_at.
  destruct (roads_at m point false None) as [|r1 [|r2 l]] eqn:E;
    cbn [length Nat.eqb hd_error].
  - split; auto.
  - destruct heading; split; try discriminate;
      intros [? | (_ & Hlen & _)]; try discriminate; cbn in Hlen; lia.
  - destruct heading as [h|].
    + rewrite best_road_loop_none. split.
      * intros Hall. right.
        split; [discriminate|]. split; [cbn; lia|].
        destruct drivable.
        { split; [reflexivity|].
          eapply List.Forall_impl; [|exact Hall].
          intros r Hr. unfold accepted in Hr. cbn in Hr.
          now rewrite negb_involutive in Hr. }
        { inversion Hall as [|? ? Hr]. discriminate Hr. }
      * intros [? | (_ & _ & -> & Hall)]; [discriminate|].
        eapply List.Forall_impl; [|exact Hall].
        intros r Hr. unfold accepted. now rewrite Hr.
    + split; [discriminate|].
      intros [? | (Hh & _)]; [discriminate | congruence].
Qed.

(** X15: a road returned by [best_road_at] is one of the roads that
    [roads_at] finds at the point with the default tolerance. *)
Theorem best_road_at_member (m : Map) (point : Point) (heading : option Q)
    (drivable : bool) (goal : option Goal) (road : Road) :
  best_road_at m point heading drivable goal = Some road ->
  In road (roads_at m point false None).
Proof.
  unfold best_road_at.
  set (rs := roads_at m point false None).
  assert (Hhd : hd_error rs = Some road -> In road rs)
    by (destruct rs; cbn; [discriminate | intros [= ->]; now left]).
  destruct (length rs =? 0)%nat; [discriminate|].
  destruct heading as [h|]; [|exact Hhd].
  destruct (length rs =? 1)%nat; [exact Hhd|].
  set (P := fun st : option Road * efloat =>
              forall b, fst st = Some b -> In b rs).
  assert (HP : P (fold_left
                    (best_road_step m point (normalise_angle h) drivable goal)
                    rs (None, Inf))).
  { apply fold_left_preserves_in; [|intros b; discriminate].
    intros [best diff] r Hr Hst. unfold best_road_step.
    assert (Hnew : P (Some r, Fin (heading_diff m point (normalise_angle h) r)))
      by (intros b [= <-]; exact Hr).
    destruct (drivable && negb (road_drivable r)); [exact Hst|].
    destruct goal, best;
      repeat match goal with |- context [if ?c then _ else _] => destruct c end;
      assumption. }
  intros E. now apply HP.
Qed.


End BestRoadProperties.

Section LaneLookupProperties.
Context `{GeometryOps} `{FloatOps}.

(** ** [adjacent_lanes_at] and [get_lane] *)

(** X12: at a point where no road lies, [adjacent_lanes_at] does not
    return an empty list: [best_lane_at] finds no lane and reading its id
    raises [AttributeError]. *)
Theorem adjacent_lanes_at_no_road (m : Map) (point : Point)
    (heading : option Q) (same_direction drivable_only : bool) :
  roads_at m point false None = [] ->
  adjacent_lanes_at m point heading same_direction drivable_only
  = Raise AttributeError.
Proof.
  intros Hroads.
  unfold adjacent_lanes_at, best_lane_at, best_road_at.
  now rewrite Hroads.
Qed.

(** X13: [get_lane] raises [AttributeError] exactly when the map holds no
    road with the given id, and [AssertionError] exactly when the road
    exists and the section index is negative or not below the number of
    its lane sections (a negative index never counts from the end);
    otherwise it returns what the section at that index holds under the
    lane id. *)
Theorem get_lane_outcome (m : Map) (road_id lane_id lane_section_idx : Z) :
  match get_lane m road_id lane_id lane_section_idx with
  | Ok found =>
      exists road ls,
        get_road m road_id = Some road
        /\ 0 <= lane_section_idx < Z.of_nat (length (lane_sections road))
        /\ nth_error (lane_sections road) (Z.to_nat lane_section_idx)
           = Some ls
        /\ found = LaneSection_get_lane ls lane_id
  | Raise AttributeError => get_road m road_id = None
  | Raise AssertionError =>
      exists road,
        get_road m road_id = Some road
        /\ (lane_section_idx < 0
            \/ Z.of_nat (length (lane_sections road)) <= lane_section_idx)
  | Raise _ => False
  end.
Proof.
  unfold get_lane.
  destruct (get_road m road_id) as [road|]; [|reflexivity].
  destruct (0 <=? lane_section_idx) eqn:E1; cbn [andb].
  - destruct (lane_section_idx <? Z.of_nat (length (lane_sections road)))
      eqn:E2.
    + apply Z.leb_le in E1. apply Z.ltb_lt in E2.
      destruct (nth_error (lane_sections road) (Z.to_nat lane_section_idx))
        as [ls|] eqn:E3.
      * exists road, ls. auto.
      * apply nth_error_None in E3. lia.
    + apply Z.ltb_ge in E2. exists road. auto.
  - apply Z.leb_gt in E1. exists road. auto.
Qed.
End LaneLookupProperties.

Section RoundaboutProperties.
Context `{GeometryOps}.

(** ** [road_in_roundabout] *)

Lemma and_then_true (a b : option (result bool)) :
  and_then a b = Some (Ok true) ->
  a = Some (Ok true) /\ b = Some (Ok true).
Proof.
  unfold and_then. destruct a as [[[|]|e]|]; intros E;
    try discriminate; auto.
Qed.

Lemma JunctionGroup_eqb_true (a b : JunctionGroup) :
  JunctionGroup_eqb a b = true <-> jg_id a = jg_id b /\ jg_type a = jg_type b.
Proof.
  unfold JunctionGroup_eqb. rewrite andb_true_iff, Z.eqb_eq, String.eqb_eq.
  reflexivity.
Qed.

Lemma in_group_true (e : Element) (g : option JunctionGroup) :
  in_group e g = Ok true ->
  is_roundabout_group g = true ->
  exists j, e = IsJunction j /\ is_roundabout_group (junction_group j) = true.
Proof.
  destruct e as [r|j|]; cbn; try discriminate.
  intros [= E] Hg. exists j. split; [reflexivity|].
  destruct (junction_group j) as [gj|]; [|discriminate].
  destruct g as [g0|]; [|discriminate]. cbn in *.
  apply JunctionGroup_eqb_true in E as [_ Ety]. now rewrite Ety.
Qed.

Lemma in_group_some_true (e : Element) (g : option JunctionGroup) :
  Some (in_group e g) = Some (Ok true) ->
  is_roundabout_group g = true ->
  exists j, e = IsJunction j /\ is_roundabout_group (junction_group j) = true.
Proof. intros [= E]. now apply in_group_true. Qed.

(** X17: for a road that is not in a junction of a roundabout group the
    first call of [road_in_roundabout] answers, without raising; the
    answer is true exactly when the road is in no junction and its
    predecessor and successor are both junctions that carry junction
    groups with the same id and the type "roundabout". *)
Theorem road_in_roundabout_plain (depth : nat) (m : Map) (road : Road) :
  match junction_of m road with
  | Some junction => is_roundabout_group (junction_group junction) = false
  | None => True
  end ->
  (exists b, road_in_roundabout (S depth) m road = Some (Ok b))
  /\ (road_in_roundabout (S depth) m road = Some (Ok true)
      <-> junction_of m road = None
          /\ exists pred succ pj sj gp gs,
               link_predecessor road = Some pred
               /\ link_successor road = Some succ
               /\ element m pred = IsJunction pj
               /\ element m succ = IsJunction sj
               /\ junction_group pj = Some gp
               /\ junction_group sj = Some gs
               /\ jg_id gp = jg_id gs
               /\ jg_type gp = "roundabout"%string
               /\ jg_type gs = "roundabout"%string).
Proof.
  intros Hj. cbn [road_in_roundabout].
  destruct (link_predecessor road) as [pred|] eqn:Ep.
  2: { split; [eauto|]. split; [discriminate|].
       intros (_ & ? & ? & ? & ? & ? & ? & ? & _). discriminate. }
  destruct (link_successor road) as [succ|] eqn:Es.
  2: { split; [eauto|]. split; [discriminate|].
       intros (_ & ? & ? & ? & ? & ? & ? & _ & ? & _). discriminate. }
  destruct (junction_of m road) as [junction|].
  { rewrite Hj. split; [eauto|]. split; [discriminate|].
    intros [? _]. discriminate. }
  destruct (element m pred) as [pr|pj|] eqn:Epe.
  1, 3: split; [destruct (element m succ); eauto|];
        split; [destruct (element m succ); discriminate|];
        intros (_ & p & s & ? & ? & ? & ? & [= <-] & [= <-] & E & _);
        rewrite Epe in E; discriminate.
  destruct (element m succ) as [sr|sj|] eqn:Ese.
  1, 3: split; [eauto|]; split; [discriminate|];
        intros (_ & p & s & ? & ? & ? & ? & [= <-] & [= <-] & _ & E & _);
        rewrite Ese in E; discriminate.
  split; [eauto|]. split.
  - intros [= E]. split; [reflexivity|].
    destruct (junction_group pj) as [gp|] eqn:Egp; [|discriminate].
    destruct (junction_group sj) as [gs|] eqn:Egs; [|discriminate].
    apply andb_true_iff in E as [E E3]. apply andb_true_iff in E as [E1 E2].
    apply JunctionGroup_eqb_true in E1 as [Hid _].
    apply String.eqb_eq in E2, E3.
    exists pred, succ, pj, sj, gp, gs.
    repeat (split; [first [reflexivity | assumption | congruence]|]).
    exact E3.
  - intros (_ & p & s & pj' & sj' & gp & gs
            & [= <-] & [= <-] & Epj & Esj & Egp & Egs & Hid & Hp & Hs).
    rewrite Epe in Epj. rewrite Ese in Esj.
    injection Epj as <-. injection Esj as <-.
    rewrite Egp, Egs. do 2 f_equal.
    rewrite !andb_true_iff, JunctionGroup_eqb_true, !String.eqb_eq.
    rewrite Hp, Hs. auto.
Qed.

(** X18: [road_in_roundabout] answers true only for a road that has both
    a predecessor and a successor (a dead end is never in a roundabout),
    and only if every junction these two links refer to carries a
    junction group of type "roundabout". *)
Theorem road_in_roundabout_true_links (depth : nat) (m : Map) (road : Road) :
  road_in_roundabout depth m road = Some (Ok true) ->
  exists pred succ,
    link_predecessor road = Some pred
    /\ link_successor road = Some succ
    /\ forall j,
         element m pred = IsJunction j \/ element m succ = IsJunction j ->
         is_roundabout_group (junction_group j) = true.
Proof.
  destruct depth as [|depth]; [discriminate|]. cbn [road_in_roundabout].
  destruct (link_predecessor road) as [pred|]; [|discriminate].
  destruct (link_successor road) as [succ|]; [|discriminate].
  intros E. exists pred, succ. split; [reflexivity|]. split; [reflexivity|].
  destruct (junction_of m road) as [junction|].
  - destruct (is_roundabout_group (junction_group junction)) eqn:Eg;
      [|discriminate].
    destruct (element m pred) as [pr|pj|] eqn:Epe,
             (element m succ) as [sr|sj|] eqn:Ese;
      apply and_then_true in E as [E1 E2];
      try (apply in_group_some_true in E1 as (j1 & Hj1 & Hr1); [|exact Eg]);
      try (apply in_group_some_true in E2 as (j2 & Hj2 & Hr2); [|exact Eg]);
      try discriminate;
      intros j [Hj|Hj]; try discriminate; congruence.
  - destruct (element m pred) as [pr|pj|] eqn:Epe; try discriminate.
    destruct (element m succ) as [sr|sj|] eqn:Ese; try discriminate.
    injection E as E.
    destruct (junction_group pj) as [gp|] eqn:Egp; [|discriminate].
    destruct (junction_group sj) as [gs|] eqn:Egs; [|discriminate].
    apply andb_true_iff in E as [E E3]. apply andb_true_iff in E as [E1 E2].
    apply String.eqb_eq in E2.
    intros j [[= <-]|[= <-]]; cbn; rewrite ?Egp, ?Egs; cbn;
      [rewrite E2|]; exact E3.
Qed.
End RoundaboutProperties.

Section MapConstructionProperties.
Context `{GeometryOps}.

(** ** [process_road_layout] *)

Lemma existsb_id_in {A} (id : A -> Z) (x : Z) (d : list A) :
  existsb (fun y => id y =? x) d = true <-> In x (map id d).
Proof.
  rewrite existsb_exists, in_map_iff. split.
  - intros (y & Hin & E). apply Z.eqb_eq in E. eauto.
  - intros (y & E & Hin). exists y. split; [exact Hin | now apply Z.eqb_eq].
Qed.

Lemma insert_all_outcome {A} (id : A -> Z) (xs : list A) :
  forall d,
    List.NoDup (map id d) ->
    (insert_all id xs d = Ok (d ++ xs) /\ List.NoDup (map id (d ++ xs)))
    \/ (insert_all id xs d = Raise AssertionError
        /\ ~ List.NoDup (map id (d ++ xs))).
Proof.
  induction xs as [|x xs IH]; intros d Hd; cbn [insert_all].
  - left. now rewrite app_nil_r.
  - assert (Happ : d ++ x :: xs = (d ++ [x]) ++ xs)
      by (now rewrite <- app_assoc).
    destruct (existsb (fun y => id y =? id x) d) eqn:E.
    + right. split; [reflexivity|]. intros Hnd.
      apply existsb_id_in in E.
      rewrite map_app in Hnd. cbn [map] in Hnd.
      apply List.NoDup_remove_2 in Hnd. apply Hnd.
      apply in_or_app. now left.
    + rewrite Happ. apply IH.
      rewrite map_app. cbn [map].
      apply List.NoDup_Add with (a := id x) (l := map id d).
      * rewrite <- (app_nil_r (map id d)) at 1. apply List.Add_app.
      * split; [exact Hd|].
        intros Hin. apply existsb_id_in in Hin. congruence.
Qed.

Lemma find_unique_id {A} (id : A -> Z) (l : list A) (x : A) :
  List.NoDup (map id l) -> In x l ->
  List.find (fun y => id y =? id x) l = Some x.
Proof.
  induction l as [|y l IH]; intros Hnd Hin; [destruct Hin|].
  cbn [map] in Hnd. apply List.NoDup_cons_iff in Hnd as [Hy Hnd].
  cbn [List.find]. destruct Hin as [->|Hin].
  - now rewrite Z.eqb_refl.
  - destruct (Z.eqb_spec (id y) (id x)) as [E|_]; [|now apply IH].
    exfalso. apply Hy. rewrite E. now apply in_map.
Qed.

(** X19: the construction of the map succeeds exactly when no two roads,
    no two junctions and no two junction groups of the description share
    an id; otherwise it fails with [AssertionError]. *)
Theorem process_road_layout_unique_ids (opendrive : OpenDrive) :
  match process_road_layout opendrive with
  | Ok _ =>
      List.NoDup (map road_id (od_roads opendrive))
      /\ List.NoDup (map junction_id (od_junctions opendrive))
      /\ List.NoDup (map jg_id (od_junction_groups opendrive))
  | Raise e =>
      e = AssertionError
      /\ ~ (List.NoDup (map road_id (od_roads opendrive))
            /\ List.NoDup (map junction_id (od_junctions opendrive))
            /\ List.NoDup (map jg_id (od_junction_groups opendrive)))
  end.
Proof.
  unfold process_road_layout.
  destruct (insert_all_outcome road_id (od_roads opendrive) []
              (List.NoDup_nil _)) as [[-> Hr]|[-> Hr]]; cbn [app] in *.
  2: { split; [reflexivity|]. intros (? & _). contradiction. }
  destruct (insert_all_outcome junction_id (od_junctions opendrive) []
              (List.NoDup_nil _)) as [[-> Hj]|[-> Hj]]; cbn [app] in *.
  2: { split; [reflexivity|]. intros (_ & ? & _). contradiction. }
  destruct (insert_all_outcome jg_id (od_junction_groups opendrive) []
              (List.NoDup_nil _)) as [[-> Hg]|[-> Hg]]; cbn [app] in *.
  2: { split; [reflexivity|]. intros (_ & _ & ?). contradiction. }
  auto.
Qed.

(** X20: a map that was constructed holds the roads and junctions of the
    description in their order, and looking up the id of any of them
    gives back that very road or junction. *)
Theorem process_road_layout_lookup (opendrive : OpenDrive) (m : Map)
    (junction_groups : list JunctionGroup) :
  process_road_layout opendrive = Ok (m, junction_groups) ->
  roads m = od_roads opendrive
  /\ junctions m = od_junctions opendrive
  /\ junction_groups = od_junction_groups opendrive
  /\ (forall road, In road (roads m) ->
                   get_road m (road_id road) = Some road)
  /\ (forall junction, In junction (junctions m) ->
                       get_junction m (junction_id junction) = Some junction).
Proof.
  unfold process_road_layout.
  destruct (insert_all_outcome road_id (od_roads opendrive) []
              (List.NoDup_nil _)) as [[-> Hr]|[-> Hr]]; cbn [app] in *;
    [|discriminate].
  destruct (insert_all_outcome junction_id (od_junctions opendrive) []
              (List.NoDup_nil _)) as [[-> Hj]|[-> Hj]]; cbn [app] in *;
    [|discriminate].
  destruct (insert_all_outcome jg_id (od_junction_groups opendrive) []
              (List.NoDup_nil _)) as [[-> Hg]|[-> Hg]]; cbn [app] in *;
    [|discriminate].
  intros [= <- <-]. cbn [roads junctions].
  repeat split.
  - intros road Hin. unfold get_road. cbn [roads].
    now apply (find_unique_id road_id).
  - intros junction Hin. unfold get_junction. cbn [junctions].
    now apply (find_unique_id junction_id).
Qed.
End MapConstructionProperties.

(** * Further properties of the agents *)

Section UpdateMacroActionProperties.
Context `{PlanningOps} `{FloatOps}.

(** ** [update_macro_action] *)

(** X21: [update_macro_action] never changes the id, the goal or the
    plan of the agent, and when it raises it leaves the whole agent as it
    was: the current macro action is replaced only by a successful
    call. *)
Theorem update_macro_action_frame (cls : MacroActionClass)
    (observation : Observation) (self : Agent) :
  let self' := fst (update_macro_action cls observation self) in
  agent_id self' = agent_id self
  /\ _goal self' = _goal self
  /\ _macro_actions self' = _macro_actions self
  /\ forall e, snd (update_macro_action cls observation self) = Raise e ->
               self' = self.
Proof.
  unfold update_macro_action. run_method.
  destruct (frame observation !! agent_id self) as [state|]; cbn; [|auto].
  destruct (_goal self) as [goal|] eqn:Eg; cbn; [|auto].
  destruct (if narrows cls _ then _ else _) as [args|e]; cbn; [|auto].
  destruct (install_loop_keeps cls (frame observation)
              (scenario_map observation) args self) as (Hid & Hgoal & Hq).
  cbv zeta in *. rewrite Hid, Hgoal, Hq, Eg.
  repeat split. intros e. discriminate.
Qed.

(** X22: when [get_possible_args] returns no parameter set,
    [update_macro_action] succeeds and installs nothing: the macro action
    held before, if any, stays current. *)
Theorem update_macro_action_no_candidates (cls : MacroActionClass)
    (observation : Observation) (self : Agent) (state : AgentState)
    (goal : Goal) :
  frame observation !! agent_id self = Some state ->
  _goal self = Some goal ->
  get_possible_args cls state (scenario_map observation) (center goal) = [] ->
  update_macro_action cls observation self = (self, Ok tt).
Proof.
  intros Hst Hg Hargs. unfold update_macro_action. run_method.
  now rewrite Hst, Hg, Hargs.
Qed.

Lemma efloat_ltb_irrefl (a : efloat) : efloat_ltb a a = false.
Proof.
  destruct a as [x|]; cbn; [|reflexivity].
  apply Qltb_ge, Qle_refl.
Qed.

Lemma efloat_ltb_trans (a b c : efloat) :
  efloat_ltb a b = true -> efloat_ltb b c = true -> efloat_ltb a c = true.
Proof.
  destruct a as [x|], b as [y|], c as [z|]; cbn; try discriminate; auto.
  rewrite !Qltb_lt. apply Qlt_trans.
Qed.

(** [a < b <= c] gives [a < c]. *)
Lemma efloat_ltb_le (a b c : efloat) :
  efloat_ltb a b = true -> efloat_ltb c b = false -> efloat_ltb a c = true.
Proof.
  destruct a as [x|], b as [y|], c as [z|]; cbn; try discriminate; auto.
  rewrite Qltb_lt, Qltb_ge, Qltb_lt. apply Qlt_le_trans.
Qed.

(** [a <= b] and [c < a] never give [b < c]. *)
Lemma efloat_le_ltb (a b c : efloat) :
  efloat_ltb b a = false -> efloat_ltb c a = true -> efloat_ltb b c = false.
Proof.
  intros Hab Hca. destruct (efloat_ltb b c) eqn:E; [|reflexivity].
  rewrite (efloat_ltb_trans b c a E Hca) in Hab. discriminate.
Qed.

(** What [argmin_from] returns: an entry that no entry undercuts and that
    undercuts every entry before it. *)
Lemma argmin_from_first (vs : list efloat) :
  forall (pre : list efloat) (best : nat) (best_v : efloat),
    nth_error pre best = Some best_v ->
    (forall v, In v pre -> efloat_ltb v best_v = false) ->
    (forall j v, (j < best)%nat -> nth_error pre j = Some v ->
                 efloat_ltb best_v v = true) ->
    exists v,
      nth_error (pre ++ vs) (argmin_from (length pre) best best_v vs) = Some v
      /\ (forall v', In v' (pre ++ vs) -> efloat_ltb v' v = false)
      /\ (forall j v',
            (j < argmin_from (length pre) best best_v vs)%nat ->
            nth_error (pre ++ vs) j = Some v' ->
            efloat_ltb v v' = true).
Proof.
  induction vs as [|x vs IH]; intros pre best best_v Hbest Hmin Hfirst.
  - cbn [argmin_from]. rewrite app_nil_r. exists best_v. auto.
  - cbn [argmin_from].
    assert (Happ : pre ++ x :: vs = (pre ++ [x]) ++ vs)
      by (now rewrite <- app_assoc).
    assert (Hlen : S (length pre) = length (pre ++ [x]))
      by (rewrite length_app; cbn; lia).
    assert (Hlt : (best < length pre)%nat)
      by (apply nth_error_Some; congruence).
    destruct (efloat_ltb x best_v) eqn:E.
    + rewrite Happ, Hlen. apply IH.
      * rewrite nth_error_app2 by lia.
        replace (length pre - length pre)%nat with 0%nat by lia.
        reflexivity.
      * intros v Hv. apply in_app_or in Hv.
        destruct Hv as [Hv|[<-|[]]]; [|apply efloat_ltb_irrefl].
        eapply efloat_le_ltb; [now apply Hmin | exact E].
      * intros j v Hj Hv.
        rewrite nth_error_app1 in Hv by exact Hj.
        eapply efloat_ltb_le; [exact E|].
        apply Hmin. eapply nth_error_In; exact Hv.
    + rewrite Happ, Hlen. apply IH.
      * rewrite nth_error_app1 by exact Hlt. exact Hbest.
      * intros v Hv. apply in_app_or in Hv.
        destruct Hv as [Hv|[<-|[]]]; [now apply Hmin | exact E].
      * intros j v Hj Hv.
        rewrite nth_error_app1 in Hv by lia.
        now apply (Hfirst j).
Qed.

Lemma argmin_first (v0 : efloat) (vs : list efloat) :
  exists i v,
    argmin (v0 :: vs) = Some i
    /\ nth_error (v0 :: vs) i = Some v
    /\ (forall v', In v' (v0 :: vs) -> efloat_ltb v' v = false)
    /\ (forall j v', (j < i)%nat -> nth_error (v0 :: vs) j = Some v' ->
                     efloat_ltb v v' = true).
Proof.
  destruct (argmin_from_first vs [v0] 0%nat v0) as (v & Hnth & Hmin & Hfirst).
  - reflexivity.
  - intros v [<-|[]]. apply efloat_ltb_irrefl.
  - intros j v Hj. lia.
  - exists (argmin_from 1 0%nat v0 vs), v. auto.
Qed.

(** The target [closest_turn_target] keeps: the first of the targets
    whose norm no target undercuts. *)
Lemma closest_turn_target_first (goal_center : Point)
    (possible_args : list kwargs) (p : Point) (ps : list Point) :
  as_points (turn_targets possible_args) = Some (p :: ps) ->
  exists i q,
    closest_turn_target goal_center possible_args
    = Ok [ {[ "turn_target"%string := VPoint q ]} ]
    /\ nth_error (p :: ps) i = Some q
    /\ (forall q', In q' (p :: ps) ->
                   efloat_ltb (float_norm_diff q' goal_center)
                              (float_norm_diff q goal_center) = false)
    /\ (forall j q', (j < i)%nat -> nth_error (p :: ps) j = Some q' ->
                     efloat_ltb (float_norm_diff q goal_center)
                                (float_norm_diff q' goal_center) = true).
Proof.
  intros Hps. unfold closest_turn_target. rewrite Hps.
  unfold norms. cbn [map].
  destruct (argmin_first (float_norm_diff p goal_center)
              (map (fun p => float_norm_diff p goal_center) ps))
    as (i & v & -> & Hnth & Hmin & Hfirst).
  change (float_norm_diff p goal_center
          :: map (fun p => float_norm_diff p goal_center) ps)
    with (map (fun p => float_norm_diff p goal_center) (p :: ps))
    in Hnth, Hmin, Hfirst.
  rewrite nth_error_map in Hnth.
  destruct (nth_error (p :: ps) i) as [q|] eqn:Eq; [|discriminate].
  injection Hnth as <-.
  exists i, q. split; [reflexivity|]. split; [exact Eq|]. split.
  - intros q' Hq'.
    apply (Hmin (float_norm_diff q' goal_center)).
    now apply (in_map (fun p => float_norm_diff p goal_center)).
  - intros j q' Hj Hq'. apply (Hfirst j); [exact Hj|].
    rewrite nth_error_map, Hq'. reflexivity.
Qed.

(** X23: when the narrowing applies and the parameter sets carry turn
    targets, all of them points, [update_macro_action] returns and the
    current macro action is then the one built from the single parameter
    [turn_target], set to the first of the targets whose norm of the
    difference to the goal center, as numpy computes it ([np.inf] when it
    overflows), no target undercuts; every other parameter of the chosen
    set is dropped. *)
Theorem update_macro_action_closest (cls : MacroActionClass)
    (observation : Observation) (self : Agent) (state : AgentState)
    (goal : Goal) (p : Point) (ps : list Point) :
  frame observation !! agent_id self = Some state ->
  _goal self = Some goal ->
  let possible_args :=
    get_possible_args cls state (scenario_map observation) (center goal) in
  narrows cls possible_args = true ->
  as_points (turn_targets possible_args) = Some (p :: ps) ->
  exists i q,
    nth_error (p :: ps) i = Some q
    /\ (forall q', In q' (p :: ps) ->
                   efloat_ltb (float_norm_diff q' (center goal))
                              (float_norm_diff q (center goal)) = false)
    /\ (forall j q', (j < i)%nat -> nth_error (p :: ps) j = Some q' ->
                     efloat_ltb (float_norm_diff q (center goal))
                                (float_norm_diff q' (center goal)) = true)
    /\ snd (update_macro_action cls observation self) = Ok tt
    /\ _current_macro (fst (update_macro_action cls observation self))
       = Some (cls_new cls (agent_id self) (frame observation)
                       (scenario_map observation) false
                       {[ "turn_target"%string := VPoint q ]}).
Proof.
  intros Hst Hg args Hn Hps.
  destruct (closest_turn_target_first (center goal) args p ps Hps)
    as (i & q & Hq & Hnth & Hmin & Hfirst).
  exists i, q. split; [exact Hnth|]. split; [exact Hmin|].
  split; [exact Hfirst|].
  unfold update_macro_action. run_method.
  rewrite Hst, Hg. fold args. rewrite Hn, Hq. split; reflexivity.
Qed.

(** X24: when the narrowing applies and no parameter set carries a turn
    target, [update_macro_action] raises [ValueError] and the agent stays
    as it was; this is what happens for a macro-action class with several
    parameter sets of another kind. *)
Theorem update_macro_action_no_turn_target (cls : MacroActionClass)
    (observation : Observation) (self : Agent) (state : AgentState)
    (goal : Goal) :
  frame observation !! agent_id self = Some state ->
  _goal self = Some goal ->
  let possible_args :=
    get_possible_args cls state (scenario_map observation) (center goal) in
  narrows cls possible_args = true ->
  turn_targets possible_args = [] ->
  update_macro_action cls observation self = (self, Raise ValueError).
Proof.
  intros Hst Hg args Hn Hts.
  unfold update_macro_action. run_method.
  rewrite Hst, Hg. fold args. rewrite Hn.
  unfold closest_turn_target. now rewrite Hts.
Qed.
End UpdateMacroActionProperties.

Section TrafficAgentProperties.
Context `{PlanningOps}.
Local Open Scope agent_scope.

(** ** [TrafficAgent.next_action] *)

(** Unfolds the methods of the traffic agent. *)
Ltac run_traffic :=
  unfold next_action, set_destination, _advance_macro,
    current_macro_next_action, set_macro_actions;
  run_method.

(** Runs a method call on the facts at hand and splits on what the macro
    action that is asked for a command returns. *)
Ltac run_call :=
  run_traffic;
  repeat (progress (cbn;
                    repeat match goal with
                           | E : _ = _ |- _ => rewrite E
                           end));
  repeat match goal with
         | |- context [ma_next_action ?ma ?o] =>
             destruct (ma_next_action ma o) as [? [?|?]]
         end;
  try reflexivity.

(** X25: the first call of [next_action] on an agent without macro action
    and without plan asks the planner; when the first plan returned
    starts with a macro action that is not done, that macro action
    becomes current, the rest of the first plan becomes the plan, and the
    command is the one of that macro action. *)
Theorem next_action_first_call (observation : Observation) (self : Agent)
    (cost : Q) (ma : MacroAction) (rest : list MacroAction)
    (others : list (list MacroAction)) :
  _current_macro self = None ->
  _macro_actions self = [] ->
  astar_search (agent_id self) (frame observation) (_goal self)
               (scenario_map observation) false
  = (cost, (ma :: rest) :: others) ->
  ma_done ma observation = false ->
  next_action observation self
  = ({| agent_id := agent_id self; _goal := _goal self;
        _current_macro := Some (fst (ma_next_action ma observation));
        _macro_actions := rest |},
     snd (ma_next_action ma observation)).
Proof.
  intros Hcm Hq Hsearch Hdone. run_call.
Qed.

(** X26: when the planner finds no path on that first call,
    [next_action] raises the [RuntimeError] of [set_destination] and the
    agent is left without macro action and without plan, as it was. *)
Theorem next_action_no_path (observation : Observation) (self : Agent)
    (cost : Q) :
  _current_macro self = None ->
  _macro_actions self = [] ->
  astar_search (agent_id self) (frame observation) (_goal self)
               (scenario_map observation) false
  = (cost, []) ->
  next_action observation self = (self, Raise RuntimeError).
Proof.
  intros Hcm Hq Hsearch. run_call.
Qed.

(** X27: when the first plan the planner returns holds no macro action,
    [next_action] raises [IndexError]: the empty plan is stored and the
    removal of its first element fails. *)
Theorem next_action_empty_plan (observation : Observation) (self : Agent)
    (cost : Q) (others : list (list MacroAction)) :
  _current_macro self = None ->
  _macro_actions self = [] ->
  astar_search (agent_id self) (frame observation) (_goal self)
               (scenario_map observation) false
  = (cost, [] :: others) ->
  next_action observation self = (self, Raise IndexError).
Proof.
  intros Hcm Hq Hsearch. run_call.
  destruct self; cbn in *; now subst.
Qed.

Lemma next_action_pops (observation : Observation) (self : Agent)
    (ma next : MacroAction) (rest : list MacroAction) :
  _current_macro self = Some ma ->
  ma_done ma observation = true ->
  _macro_actions self = next :: rest ->
  next_action observation self
  = ({| agent_id := agent_id self; _goal := _goal self;
        _current_macro := Some (fst (ma_next_action next observation));
        _macro_actions := rest |},
     snd (ma_next_action next observation)).
Proof.
  intros Hcm Hdone Hq. run_call.
Qed.

(** X28: when the current macro action is done and the plan is not
    empty, [next_action] makes the first macro action of the plan
    current, removes it from the plan and returns its command, without
    asking first whether it is done; no other macro action of the plan
    is touched. *)
Theorem next_action_advances (observation : Observation) (self : Agent)
    (ma next : MacroAction) (rest : list MacroAction) :
  _current_macro self = Some ma ->
  ma_done ma observation = true ->
  _macro_actions self = next :: rest ->
  next_action observation self
  = ({| agent_id := agent_id self; _goal := _goal self;
        _current_macro := Some (fst (ma_next_action next observation));
        _macro_actions := rest |},
     snd (ma_next_action next observation)).
Proof.
  exact (next_action_pops observation self ma next rest).
Qed.

Lemma next_action_continues (observation : Observation) (self : Agent)
    (ma : MacroAction) :
  _current_macro self = Some ma ->
  ma_done ma observation = false ->
  next_action observation self
  = (set_current_macro (Some (fst (ma_next_action ma observation))) self,
     snd (ma_next_action ma observation)).
Proof.
  intros Hcm Hdone. run_call.
Qed.

(** X29: the plan is a queue: a call of [next_action] on an agent that
    has a current macro action removes at most one macro action, from
    the front of the plan, and adds none; it removes one exactly when
    the current macro action is done and the plan is not empty. *)
Theorem next_action_consumes_front (observation : Observation)
    (self : Agent) (ma : MacroAction) :
  _current_macro self = Some ma ->
  let self' := fst (next_action observation self) in
  exists consumed,
    _macro_actions self = consumed ++ _macro_actions self'
    /\ (length consumed <= 1)%nat
    /\ (consumed <> []
        <-> ma_done ma observation = true /\ _macro_actions self <> []).
Proof.
  intros Hcm. cbv zeta.
  destruct (ma_done ma observation) eqn:Hdone.
  - destruct (_macro_actions self) as [|next rest] eqn:Hq.
    + rewrite (next_action_exhausted observation self ma Hcm Hq Hdone).
      exists []. cbn. rewrite Hq.
      split; [reflexivity|]. split; [lia|]. split; [congruence|].
      intros [_ Hne]. congruence.
    + rewrite (next_action_pops observation self ma next rest
                 Hcm Hdone Hq).
      exists [next]. cbn.
      split; [reflexivity|]. split; [lia|]. split; [auto|discriminate].
  - rewrite (next_action_continues observation self ma Hcm Hdone).
    exists []. cbn.
    split; [reflexivity|]. split; [lia|]. split; [congruence|].
    intros [Hd _]. discriminate.
Qed.

Lemma set_destination_none_keeps (observation : Observation) (self : Agent) :
  agent_id (fst (set_destination observation None self)) = agent_id self
  /\ _goal (fst (set_destination observation None self)) = _goal self
  /\ _current_macro (fst (set_destination observation None self))
     = _current_macro self.
Proof.
  unfold set_destination. run_method. cbn.
  destruct (astar_search _ _ _ _ _) as [cost [|plan plans]]; cbn; auto.
Qed.

(** [next_action] never changes the id or the goal of the agent,
    whether it returns a command or raises, and whether or not it asks
    the planner. *)
Theorem next_action_keeps_goal (observation : Observation) (self : Agent) :
  agent_id (fst (next_action observation self)) = agent_id self
  /\ _goal (fst (next_action observation self)) = _goal self.
Proof.
  destruct (_current_macro self) as [ma|] eqn:Hcm.
  - destruct (ma_done ma observation) eqn:Hdone.
    + destruct (_macro_actions self) as [|next rest] eqn:Hq.
      * now rewrite (next_action_exhausted observation self ma Hcm Hq Hdone).
      * now rewrite (next_action_pops observation self ma next rest
                       Hcm Hdone Hq).
    + now rewrite (next_action_continues observation self ma Hcm Hdone).
  - run_traffic. rewrite Hcm.
    destruct (_macro_actions self) as [|m0 rest0] eqn:Hq; cbn.
    + destruct (astar_search _ _ _ _ _) as [cost [|plan plans]]; cbn;
        [auto|].
      destruct plan as [|m1 rest1]; cbn; [auto|].
      destruct (ma_done m1 observation); cbn.
      * destruct rest1 as [|m2 rest2]; cbn; [auto|].
        destruct (ma_next_action m2 observation) as [ma' [a|e]]; cbn; auto.
      * destruct (ma_next_action m1 observation) as [ma' [a|e]]; cbn; auto.
    + rewrite Hq. cbn.
      destruct (ma_done m0 observation); cbn.
      * destruct rest0 as [|m2 rest2]; cbn; [auto|].
        destruct (ma_next_action m2 observation) as [ma' [a|e]]; cbn; auto.
      * destruct (ma_next_action m0 observation) as [ma' [a|e]]; cbn; auto.
Qed.

(** ** [set_macro_actions] *)

(** X30: an agent given a list of macro actions by [set_macro_actions]
    follows it without the planner: the next call of [next_action] makes
    the first given macro action current when the agent has none; an
    empty list is refused with [AssertionError] and changes nothing. *)
Theorem set_macro_actions_then_next (observation : Observation)
    (self : Agent) (ma : MacroAction) (rest : list MacroAction) :
  _current_macro self = None ->
  ma_done ma observation = false ->
  set_macro_actions [] self = (self, Raise AssertionError)
  /\ (set_macro_actions (ma :: rest) ;;; next_action observation) self
     = ({| agent_id := agent_id self; _goal := _goal self;
           _current_macro := Some (fst (ma_next_action ma observation));
           _macro_actions := rest |},
        snd (ma_next_action ma observation)).
Proof.
  intros Hcm Hdone. split; [reflexivity|]. run_call.
Qed.
End TrafficAgentProperties.

(** * The properties on the concrete instance *)

Import Demo.

(** ** Roundabout membership *)

Lemma road_in_roundabout_cycle_step (depth : nat) :
  road_in_roundabout (S depth) cyclic_roundabout_map road_a
  = and_then (road_in_roundabout depth cyclic_roundabout_map road_b)
             (road_in_roundabout depth cyclic_roundabout_map road_b)
  /\ road_in_roundabout (S depth) cyclic_roundabout_map road_b
     = and_then (road_in_roundabout depth cyclic_roundabout_map road_a)
                (road_in_roundabout depth cyclic_roundabout_map road_a).
Proof. split; reflexivity. Qed.

Lemma road_in_roundabout_cycle_never_returns (depth : nat) :
  road_in_roundabout depth cyclic_roundabout_map road_a = None
  /\ road_in_roundabout depth cyclic_roundabout_map road_b = None.
Proof.
  induction depth as [|depth [IHa IHb]]; [split; reflexivity|].
  destruct (road_in_roundabout_cycle_step depth) as [-> ->].
  now rewrite IHa, IHb.
Qed.

(** C1 fails on the code: two connecting roads of a roundabout junction
    that are each other's predecessor and successor; no depth suffices
    for [road_in_roundabout] to return. *)
Lemma road_in_roundabout_cycle_diverges :
  ~ exists depth r,
      road_in_roundabout depth cyclic_roundabout_map road_a = Some r.
Proof.
  intros (depth & r & E).
  destruct (road_in_roundabout_cycle_never_returns depth) as [Ha _].
  rewrite Ha in E. discriminate.
Qed.

Lemma roundabout_map_callee (ref : ElementRef) (callee : Road) :
  element roundabout_map ref = IsRoad callee ->
  rank callee = 0%nat
  \/ (refers_to 23 (Some ref) = true \/ refers_to 24 (Some ref) = true)
     /\ rank callee = 1%nat.
Proof.
  destruct ref as [id|id]; cbn [element].
  - unfold get_road. cbn [roundabout_map roads List.find].
    repeat match goal with
           | |- context [?a =? id] => destruct (Z.eqb_spec a id) as [<-|_]
           end;
      intros [= <-]; auto.
  - destruct (get_junction roundabout_map id); discriminate.
Qed.

Lemma roundabout_map_rank (road callee : Road) :
  recursive_call roundabout_map road callee ->
  (rank callee < rank road)%nat.
Proof.
  intros (pred & succ & junction & Hp & Hs & Hj & _ & Hc).
  unfold junction_of in Hj. unfold rank at 2. rewrite Hp, Hs.
  destruct (road_junction road); [|discriminate].
  destruct Hc as [Hc|Hc]; apply roundabout_map_callee in Hc;
    destruct Hc as [-> | [[-> | ->] ->]];
    rewrite ?orb_true_r; cbn [orb];
    repeat match goal with |- context [if ?c then _ else _] => destruct c end;
    lia.
Qed.

(** A roundabout entered from a cycle of plain roads: the call on the
    entry returns. *)
Lemma road_in_roundabout_terminates_witness :
  (forall road callee,
      recursive_call roundabout_map road callee ->
      (rank callee < rank road)%nat)
  /\ exists r, forall depth,
       (rank entry < depth)%nat ->
       road_in_roundabout depth roundabout_map entry = Some r.
Proof.
  split; [exact roundabout_map_rank|].
  exact (road_in_roundabout_terminates roundabout_map rank
           roundabout_map_rank entry).
Defined.

Example road_in_roundabout_plain_cycle :
  road_in_roundabout 1 cyclic_plain_map road_c = Some (Ok false).
Proof. reflexivity. Qed.

Example road_in_roundabout_ring :
  road_in_roundabout 1 roundabout_map ring_1 = Some (Ok true).
Proof. reflexivity. Qed.

Example road_in_roundabout_connector :
  road_in_roundabout 1 roundabout_map connector = None
  /\ road_in_roundabout 2 roundabout_map connector = Some (Ok true).
Proof. split; reflexivity. Qed.

Example road_in_roundabout_entry :
  road_in_roundabout 2 roundabout_map entry = Some (Ok false).
Proof. reflexivity. Qed.

(** ** Lanes and roads at a point *)

(** [lanes_at] has no test on the lane id: a center lane handed a boundary
    that is not empty and lies at the point would be returned. *)
Lemma lanes_at_returns_center_lane :
  lanes_at footpath_map origin false None
  = [lane 5 1 SIDEWALK 0; lane 5 0 NONE_TYPE 0; lane 5 (-1) SIDEWALK 0]
  /\ existsb (fun l => lane_id l =? 0) (lanes_at footpath_map origin false None)
     = true.
Proof. split; reflexivity. Qed.


(** The center lane of [bare_center_map] has an empty boundary at distance
    0 of the point: the left and the right lane are returned. *)
Example lanes_at_bare_center :
  lanes_at bare_center_map origin false None
  = [lane 9 1 DRIVING 0; lane 9 (-1) DRIVING 0].
Proof. reflexivity. Qed.

Lemma best_road_at_first_unfiltered_witness :
  road_drivable footpath = false
  /\ roads_at footpath_map origin false None = [footpath]
  /\ best_road_at footpath_map origin (Some 0%Q) true None = Some footpath.
Proof.
  split; [reflexivity|]. split; [reflexivity|].
  apply (best_road_at_first_unfiltered footpath_map origin (Some 0%Q) true None
           footpath []); [reflexivity | left; reflexivity].
Defined.

Lemma best_road_at_goal_is_left_fold_witness :
  (2 <= length (List.filter road_drivable
                  (roads_at three_roads_map origin false None)))%nat
  /\ best_road_at three_roads_map origin (Some 0%Q) true
                  (Some goal_at_midline_distance)
     = goal_left_fold goal_at_midline_distance
         (List.filter (accepted true)
            (roads_at three_roads_map origin false None)).
Proof.
  assert (Htwo : (2 <= length (List.filter road_drivable
                           (roads_at three_roads_map origin false None)))%nat)
    by (vm_compute; lia).
  split; [exact Htwo|].
  exact (best_road_at_goal_is_left_fold three_roads_map origin 0%Q true
           goal_at_midline_distance Htwo).
Defined.

Example best_road_at_goal_near :
  best_road_at three_roads_map origin (Some 0%Q) true
               (Some goal_at_midline_distance) = Some road_near.
Proof. reflexivity. Qed.

Example best_lane_at_right_lane :
  best_lane_at three_roads_map origin (Some 0%Q) true None
               (Some goal_at_midline_distance) = Some (lane 7 (-1) DRIVING 0).
Proof. reflexivity. Qed.

(** Both sums are rounded to 1: the lane met first is kept, although the
    boundary of the second is nearer. *)
Example best_lane_at_rounded_sum :
  float_add 1 (1 # 64) = float_add 1 (1 # 128)
  /\ best_lane_at rounding_map origin (Some 1%Q) true (Some 1%Q) None
     = Some (lane 50 (-1) DRIVING (1 # 64)).
Proof. split; reflexivity. Qed.

(** The norm overflows for both turn targets: the first one is taken,
    here the farther one. *)
Example update_macro_action_overflow :
  float_norm_diff (2000%Q, 0%Q) (center goal_at_midline_distance) = Inf
  /\ float_norm_diff (1500%Q, 0%Q) (center goal_at_midline_distance) = Inf
  /\ narrows ExitFar (get_possible_args ExitFar state0 three_roads_map
                        (center goal_at_midline_distance)) = true
  /\ _current_macro (fst (update_macro_action ExitFar observation0 fresh_agent))
     = Some {| m_name := "Exit";
               m_target := Some (VPoint (2000%Q, 0%Q));
               m_done := false |}.
Proof. repeat split; vm_compute; reflexivity. Qed.

(** C8 fails as stated: the agent below has an empty plan queue and a
    current macro action that reports done at the first observation, and
    the first call returns the neutral command.  The macro action is asked
    again at the next call: where it no longer reports done its own
    [next_action] answers, with a command that is not neutral or with an
    error. *)
Lemma next_action_after_stop_not_neutral :
  _macro_actions drift_agent = []
  /\ MacroAgent_done (observation_at 5) drift_agent = (drift_agent, Ok true)
  /\ @next_actions geometry drift_macros drift_planning
       [observation_at 5; observation_at 4] drift_agent
     = (drift_agent,
        [Ok stop; Ok {| acceleration := 1; steer_angle := 0 |}])
  /\ @next_actions geometry drift_macros drift_planning
       [observation_at 5; observation_at 6] drift_agent
     = (drift_agent, [Ok stop; Raise IndexError]).
Proof. repeat split; vm_compute; reflexivity. Qed.

Example in_roundabout_off_the_map :
  in_roundabout 5 {| roads := []; junctions := [] |} origin (Some 0%Q)
  = Some (Raise ValueError).
Proof. reflexivity. Qed.

(** ** Agents *)

(** C3 fails on the code: the planner finds no path for a newly created
    agent; [set_destination] raises the [RuntimeError], and [done] then
    raises the assertion failure of [MacroAgent.done] instead of
    returning false. *)
Lemma set_destination_then_done_raises :
  snd (astar_search (agent_id fresh_agent) (frame observation0)
                    (_goal fresh_agent) (scenario_map observation0) false) = []
  /\ snd (set_destination observation0 None fresh_agent) = Raise RuntimeError
  /\ snd (done observation0 (fst (set_destination observation0 None fresh_agent)))
     = Raise AssertionError
  /\ snd (done observation0 (fst (set_destination observation0 None fresh_agent)))
     <> Ok false.
Proof. repeat split; try reflexivity. discriminate. Qed.

Lemma set_destination_no_path_witness :
  snd (set_destination observation0 None fresh_agent) = Raise RuntimeError
  /\ _macro_actions (fst (set_destination observation0 None fresh_agent)) = []
  /\ _current_macro (fst (set_destination observation0 None fresh_agent)) = None
  /\ forall observation',
       snd (done observation' (fst (set_destination observation0 None fresh_agent)))
       = Raise AssertionError.
Proof.
  apply (set_destination_no_path observation0 None fresh_agent).
  reflexivity.
Defined.

Lemma next_action_exhausted_stops_witness :
  next_actions [observation0; observation0] finished_agent
  = (finished_agent, [Ok stop; Ok stop]).
Proof.
  apply (next_action_exhausted_stops [observation0; observation0] finished_agent
           {| m_name := "Continue"; m_target := None; m_done := true |});
    [reflexivity | reflexivity | repeat constructor].
Defined.

(** C4 fails on the code: [Continue] is not an exit maneuver, yet with two
    parameter sets the narrowing is applied: the macro action installed is
    built from the turn target closest to the goal center (10, 0), the
    first one, not from the last parameter set. *)
Lemma update_macro_action_narrows_non_exit :
  is_exit_maneuver Continue = false
  /\ narrows Continue two_targets = true
  /\ update_macro_action Continue observation0 fresh_agent
     = (set_current_macro
          (Some {| m_name := "Continue";
                   m_target := Some (VPoint (9%Q, 0%Q));
                   m_done := false |})
          fresh_agent,
        Ok tt).
Proof. repeat split; vm_compute; reflexivity. Qed.

Lemma update_macro_action_installs_last_witness :
  narrows Duck two_targets = false
  /\ snd (update_macro_action Duck observation0 fresh_agent) = Ok tt
  /\ _current_macro (fst (update_macro_action Duck observation0 fresh_agent))
     = Some {| m_name := "Duck";
               m_target := Some (VPoint (20%Q, 0%Q));
               m_done := false |}.
Proof.
  split; [reflexivity|].
  destruct (update_macro_action_installs_last Duck observation0 fresh_agent
              state0 goal_at_midline_distance
              [ {[ "turn_target"%string := VPoint (9%Q, 0%Q) ]} ]
              {[ "turn_target"%string := VPoint (20%Q, 0%Q) ]})
    as [Hr Hc]; try reflexivity.
  split; [exact Hr|].
  rewrite Hc. vm_compute. reflexivity.
Defined.

(** ** The further properties on the concrete instance *)

Lemma roads_at_tolerance_witness :
  roads_at spread_map origin false (Some (1 # 2))
  = List.filter (road_within origin (1 # 2))
                (roads_at spread_map origin false (Some 1%Q)).
Proof.
  apply (roads_at_tolerance spread_map origin false (1 # 2) 1).
  discriminate.
Defined.

Example roads_at_spread :
  roads_at spread_map origin false (Some (1 # 2)) = [road_away 41 0]
  /\ roads_at spread_map origin false (Some 1%Q)
     = [road_away 41 0; road_away 42 (3 # 4)].
Proof. split; reflexivity. Qed.

Lemma lanes_at_sound_witness :
  lane_through origin false (default LANE_PRECISION_ERROR None)
               (lane 5 1 SIDEWALK 0) = true
  /\ lane_of_roads
       (roads_at footpath_map origin false
                 (Some (default LANE_PRECISION_ERROR None)))
       (lane 5 1 SIDEWALK 0).
Proof.
  apply (lanes_at_sound footpath_map origin false None (lane 5 1 SIDEWALK 0)).
  vm_compute. auto.
Defined.

Lemma lanes_at_complete_witness :
  lane_in (lane 5 (-1) SIDEWALK 0) (lanes_at footpath_map origin false None)
  = true.
Proof.
  apply (lanes_at_complete footpath_map origin false None
           (lane 5 (-1) SIDEWALK 0)).
  - exists footpath, (section 5 SIDEWALK). repeat split; vm_compute; auto 10.
  - reflexivity.
Defined.

Lemma within_angle_no_threshold_witness :
  roads_within_angle three_roads_map origin 0 0 None = []
  /\ lanes_within_angle three_roads_map origin 0 0 true None = [].
Proof.
  apply (within_angle_no_threshold three_roads_map origin 0 0 true None).
  discriminate.
Defined.

Lemma roads_within_angle_single_witness :
  roads_within_angle footpath_map origin 3 (1 # 10) None = [footpath].
Proof.
  apply (roads_within_angle_single footpath_map origin 3 (1 # 10) None
           footpath); reflexivity.
Defined.

Example roads_within_angle_three :
  roads_within_angle three_roads_map origin 0 1 None
  = [road_far; road_near; road_mid]
  /\ roads_within_angle three_roads_map origin 3 (1 # 10) None = [].
Proof. split; reflexivity. Qed.


Example lanes_within_angle_right_lanes :
  lanes_within_angle three_roads_map origin 0 1 true None
  = [lane 6 (-1) DRIVING 0; lane 7 (-1) DRIVING 0; lane 8 (-1) DRIVING 0].
Proof. reflexivity. Qed.

Lemma lanes_within_angle_sound_witness :
  lane_id (lane 7 (-1) DRIVING 0) <> 0
  /\ (true = true -> is_driving (lane 7 (-1) DRIVING 0) = true)
  /\ (exists b, lane_boundary (lane 7 (-1) DRIVING 0) = Some b
                /\ (distance b origin
                    < default LANE_PRECISION_ERROR None)%Q)
  /\ exists road ls,
       In road (roads_within_angle
                  three_roads_map origin 0 1
                  (Some (default LANE_PRECISION_ERROR None)))
       /\ In ls (lane_sections road)
       /\ In (lane 7 (-1) DRIVING 0) (all_lanes ls)
       /\ (Qabs (normalise_angle
                   (0 - lane_angle road origin (lane 7 (-1) DRIVING 0)))
           < 1)%Q.
Proof.
  apply (lanes_within_angle_sound three_roads_map origin 0 1 true None
           (lane 7 (-1) DRIVING 0)).
  vm_compute. auto.
Defined.

Lemma get_adjacent_lanes_sound_witness :
  (exists ls, lane_section_of three_roads_map (lane 7 (-1) DRIVING 0) = Some ls
              /\ In (lane 7 1 DRIVING 0) (all_lanes ls))
  /\ lane_id (lane 7 1 DRIVING 0) <> lane_id (lane 7 (-1) DRIVING 0)
  /\ lane_id (lane 7 1 DRIVING 0) <> 0
  /\ (false = true ->
      Z.sgn (lane_id (lane 7 1 DRIVING 0))
      = Z.sgn (lane_id (lane 7 (-1) DRIVING 0)))
  /\ (true = true -> is_driving (lane 7 1 DRIVING 0) = true).
Proof.
  apply (get_adjacent_lanes_sound three_roads_map (lane 7 (-1) DRIVING 0)
           false true [lane 7 1 DRIVING 0] (lane 7 1 DRIVING 0));
    [reflexivity | now left].
Defined.

Example get_adjacent_lanes_same_direction :
  get_adjacent_lanes three_roads_map (lane 7 (-1) DRIVING 0) true true = Ok [].
Proof. reflexivity. Qed.

Lemma adjacent_lanes_at_no_road_witness :
  adjacent_lanes_at {| roads := []; junctions := [] |} origin (Some 0%Q)
                    true true
  = Raise AttributeError.
Proof.
  apply (adjacent_lanes_at_no_road {| roads := []; junctions := [] |} origin
           (Some 0%Q) true true).
  reflexivity.
Defined.

Lemma best_road_at_member_witness :
  In road_near (roads_at three_roads_map origin false None).
Proof.
  apply (best_road_at_member three_roads_map origin (Some 0%Q) true
           (Some goal_at_midline_distance) road_near).
  reflexivity.
Defined.


Lemma road_in_roundabout_plain_witness :
  (exists b, road_in_roundabout 1 roundabout_map ring_1 = Some (Ok b))
  /\ (road_in_roundabout 1 roundabout_map ring_1 = Some (Ok true)
      <-> junction_of roundabout_map ring_1 = None
          /\ exists pred succ pj sj gp gs,
               link_predecessor ring_1 = Some pred
               /\ link_successor ring_1 = Some succ
               /\ element roundabout_map pred = IsJunction pj
               /\ element roundabout_map succ = IsJunction sj
               /\ junction_group pj = Some gp
               /\ junction_group sj = Some gs
               /\ jg_id gp = jg_id gs
               /\ jg_type gp = "roundabout"%string
               /\ jg_type gs = "roundabout"%string).
Proof.
  exact (road_in_roundabout_plain 0 roundabout_map ring_1 I).
Defined.

Lemma road_in_roundabout_true_links_witness :
  exists pred succ,
    link_predecessor connector = Some pred
    /\ link_successor connector = Some succ
    /\ forall j,
         element roundabout_map pred = IsJunction j
         \/ element roundabout_map succ = IsJunction j ->
         is_roundabout_group (junction_group j) = true.
Proof.
  apply (road_in_roundabout_true_links 2 roundabout_map connector).
  reflexivity.
Defined.

Lemma process_road_layout_lookup_witness :
  roads {| roads := [road_far; road_near]; junctions := [] |}
  = od_roads description
  /\ junctions {| roads := [road_far; road_near]; junctions := [] |}
     = od_junctions description
  /\ [roundabout_group] = od_junction_groups description
  /\ (forall road,
        In road (roads {| roads := [road_far; road_near]; junctions := [] |}) ->
        get_road {| roads := [road_far; road_near]; junctions := [] |}
                 (road_id road) = Some road)
  /\ (forall junction,
        In junction
           (junctions {| roads := [road_far; road_near]; junctions := [] |}) ->
        get_junction {| roads := [road_far; road_near]; junctions := [] |}
                     (junction_id junction) = Some junction).
Proof.
  apply (process_road_layout_lookup description
           {| roads := [road_far; road_near]; junctions := [] |}
           [roundabout_group]).
  reflexivity.
Defined.

Example process_road_layout_duplicate :
  process_road_layout
    {| od_roads := [road_far; road_near; road_far]; od_junctions := [];
       od_junction_groups := [] |}
  = Raise AssertionError.
Proof. reflexivity. Qed.

Lemma update_macro_action_no_candidates_witness :
  update_macro_action StopMA observation0 finished_agent
  = (finished_agent, Ok tt).
Proof.
  apply (update_macro_action_no_candidates StopMA observation0 finished_agent
           state0 goal_at_midline_distance); reflexivity.
Defined.

Lemma update_macro_action_closest_witness :
  exists i q,
    nth_error [(9%Q, 0%Q); (20%Q, 0%Q)] i = Some q
    /\ (forall q', In q' [(9%Q, 0%Q); (20%Q, 0%Q)] ->
                   efloat_ltb
                     (float_norm_diff q' (center goal_at_midline_distance))
                     (float_norm_diff q (center goal_at_midline_distance))
                   = false)
    /\ (forall j q', (j < i)%nat ->
                     nth_error [(9%Q, 0%Q); (20%Q, 0%Q)] j = Some q' ->
                     efloat_ltb
                       (float_norm_diff q (center goal_at_midline_distance))
                       (float_norm_diff q' (center goal_at_midline_distance))
                     = true)
    /\ snd (update_macro_action Exit observation0 fresh_agent) = Ok tt
    /\ _current_macro (fst (update_macro_action Exit observation0 fresh_agent))
       = Some (cls_new Exit (agent_id fresh_agent) (frame observation0)
                       (scenario_map observation0) false
                       {[ "turn_target"%string := VPoint q ]}).
Proof.
  apply (update_macro_action_closest Exit observation0 fresh_agent state0
           goal_at_midline_distance (9%Q, 0%Q) [(20%Q, 0%Q)]);
    reflexivity.
Defined.

Lemma update_macro_action_no_turn_target_witness :
  update_macro_action ChangeLane observation0 fresh_agent
  = (fresh_agent, Raise ValueError).
Proof.
  apply (update_macro_action_no_turn_target ChangeLane observation0
           fresh_agent state0 goal_at_midline_distance); reflexivity.
Defined.

Lemma next_action_first_call_witness :
  @next_action geometry macro_actions planning_found observation0 fresh_agent
  = ({| agent_id := 0; _goal := Some goal_at_midline_distance;
        _current_macro := Some cruise; _macro_actions := [arrived] |},
     Ok {| acceleration := 1; steer_angle := 0 |}).
Proof.
  apply (@next_action_first_call geometry macro_actions planning_found
           observation0 fresh_agent 1%Q cruise [arrived] [[arrived]]);
    reflexivity.
Defined.

Lemma next_action_no_path_witness :
  next_action observation0 fresh_agent = (fresh_agent, Raise RuntimeError).
Proof.
  apply (next_action_no_path observation0 fresh_agent 0%Q); reflexivity.
Defined.

Lemma next_action_empty_plan_witness :
  @next_action geometry macro_actions planning_empty_plan observation0
               fresh_agent
  = (fresh_agent, Raise IndexError).
Proof.
  apply (@next_action_empty_plan geometry macro_actions planning_empty_plan
           observation0 fresh_agent 0%Q []); reflexivity.
Defined.

Lemma next_action_advances_witness :
  next_action observation0 agent_mid_plan
  = ({| agent_id := 0; _goal := Some goal_at_midline_distance;
        _current_macro := Some cruise; _macro_actions := [arrived] |},
     Ok {| acceleration := 1; steer_angle := 0 |}).
Proof.
  apply (next_action_advances observation0 agent_mid_plan arrived cruise
           [arrived]); reflexivity.
Defined.

Lemma next_action_consumes_front_witness :
  exists consumed,
    _macro_actions agent_mid_plan
    = consumed ++ _macro_actions (fst (next_action observation0 agent_mid_plan))
    /\ (length consumed <= 1)%nat
    /\ (consumed <> []
        <-> ma_done arrived observation0 = true
            /\ _macro_actions agent_mid_plan <> []).
Proof.
  apply (next_action_consumes_front observation0 agent_mid_plan arrived).
  reflexivity.
Defined.

Lemma set_macro_actions_then_next_witness :
  set_macro_actions [] fresh_agent = (fresh_agent, Raise AssertionError)
  /\ bind (set_macro_actions [cruise; arrived])
          (fun _ => next_action observation0) fresh_agent
     = ({| agent_id := 0; _goal := Some goal_at_midline_distance;
           _current_macro := Some cruise; _macro_actions := [arrived] |},
        Ok {| acceleration := 1; steer_angle := 0 |}).
Proof.
  apply (set_macro_actions_then_next observation0 fresh_agent cruise [arrived]);
    reflexivity.
Defined.
